(** * AI Learning Intelligence Tool: feature aggregation, scaling, risk tiers
      and chapter difficulty

    A shallow embedding of [app/main.py] (the [/predict] endpoint and its
    helper [preprocess_student_data]) and of [scripts/train_models.py] (the
    training-time aggregation, the scaler fit and the difficulty table).

    Numbers.  A float64 is modelled by an exact rational ([Qc], rationals in
    lowest terms, with Leibniz equality); [None] in a [float] is NaN.  Rounding
    error of the machine arithmetic is therefore not part of the model.  The
    square root is a parameter of the development: every theorem holds for any
    function [sqrt : Qc -> Qc]. *)

From Stdlib Require Import QArith Qcanon Qround Lqa Ascii String OrderedTypeEx.
From Stdlib Require Floats.PrimFloat Uint63.
From stdpp Require Import base list sorting numbers strings.

Local Open Scope Qc_scope.

(** ** Exceptions *)

Inductive exn :=
| KeyError (column : string)
| TypeError (column : string)
| ValueError
| IndexError.

Inductive Except (A : Type) :=
| Ok (a : A)
| Raise (e : exn).
Arguments Ok {A} a.
Arguments Raise {A} e.

#[global] Instance except_ret : MRet Except := fun A a => Ok a.

#[global] Instance except_bind : MBind Except := fun A B k m =>
  match m with
  | Ok a => k a
  | Raise e => Raise e
  end.

(** ** Reductions of pandas over a float64 group

    Every reduction skips NaN.  [mean], [min], [max] of a group without a
    valid value are NaN; [sum] of such a group is 0; [std] has [ddof = 1] and is
    NaN when the group has at most one valid value. *)

Abbreviation float := (option Qc).

Definition Qc_of_nat (n : nat) : Qc := Qc_of_Z (Z.of_nat n).

Definition dropna (xs : list float) : list Qc := omap id xs.

Definition qsum (ys : list Qc) : Qc := foldr Qcplus 0 ys.

Definition Qcmin (x y : Qc) : Qc := if decide (x <= y) then x else y.
Definition Qcmax (x y : Qc) : Qc := if decide (x <= y) then y else x.

Definition nansum (xs : list float) : float := Some (qsum (dropna xs)).

Definition nanmean (xs : list float) : float :=
  match dropna xs with
  | [] => None
  | ys => Some (qsum ys / Qc_of_nat (length ys))
  end.

Definition nanmin (xs : list float) : float :=
  match dropna xs with
  | [] => None
  | y :: ys => Some (foldl Qcmin y ys)
  end.

Definition nanmax (xs : list float) : float :=
  match dropna xs with
  | [] => None
  | y :: ys => Some (foldl Qcmax y ys)
  end.

(** The grouped variance is accumulated in one pass (Welford's update): for
    each valid value, [nobs += 1; mean += (val - oldmean) / nobs;
    out += (val - mean) * (val - oldmean)]; at the end [out / (nobs - ddof)],
    or NaN when [nobs <= ddof]. *)

Record var_state := { nobs : nat; vmean : Qc; vout : Qc }.

Definition var_step (st : var_state) (val : Qc) : var_state :=
  let n := S (nobs st) in
  let oldmean := vmean st in
  let mean := oldmean + (val - oldmean) / Qc_of_nat n in
  {| nobs := n; vmean := mean; vout := vout st + (val - mean) * (val - oldmean) |}.

Definition var_init : var_state := {| nobs := 0; vmean := 0; vout := 0 |}.

Definition group_var (ddof : nat) (xs : list float) : float :=
  let st := foldl var_step var_init (dropna xs) in
  if decide (nobs st <= ddof)%nat then None
  else Some (vout st / Qc_of_nat (nobs st - ddof)).

(** The sample standard deviation as the textbook writes it. *)

Definition sq_dev_sum (mu : Qc) (ys : list Qc) : Qc :=
  qsum ((fun y => (y - mu) * (y - mu)) <$> ys).

Definition sample_variance (ys : list Qc) : Qc :=
  let n := Qc_of_nat (length ys) in
  sq_dev_sum (qsum ys / n) ys / (n - 1).

(** The sum of the squares, for the invariant of the one-pass variance. *)
Definition qsum_sq (ys : list Qc) : Qc := qsum ((fun y => y * y) <$> ys).

(** ** Data model

    A cell read from a CSV file is a number, a missing value (NaN) or text
    that does not parse as a number.  A column that holds a [Str] cell has
    dtype [object]. *)

Inductive cell :=
| Num (x : Qc)
| NaN
| Str (s : string).

(** One row of the input table: the fields of [StudentData] and, in the
    training file written by [generate_data.py], the 0/1 target [completed].
    The identifiers are integers, as [StudentData] declares them. *)

Record Event := {
  student_id : Z;
  course_id : string;
  chapter_id : Z;
  time_spent : cell;
  score : cell;
  completed : Z
}.

(** A frame is its header and its rows.  A field of a row is read only when
    its name is in [columns]. *)

Record DataFrame := {
  columns : list string;
  rows : list Event
}.

Definition cell_of (name : string) (e : Event) : cell :=
  if decide (name = "student_id") then Num (Qc_of_Z (student_id e))
  else if decide (name = "course_id") then Str (course_id e)
  else if decide (name = "chapter_id") then Num (Qc_of_Z (chapter_id e))
  else if decide (name = "time_spent") then time_spent e
  else if decide (name = "score") then score e
  else if decide (name = "completed") then Num (Qc_of_Z (completed e))
  else NaN.

Definition is_text (c : cell) : bool :=
  match c with Str _ => true | _ => false end.

Definition to_float (c : cell) : float :=
  match c with Num x => Some x | _ => None end.

Definition series (name : string) (es : list Event) : list float :=
  (fun e => to_float (cell_of name e)) <$> es.

(** An aggregated frame: column labels, and one row of values per group key,
    in the order of the keys. *)

Record Frame (L K A : Type) := {
  fcolumns : list L;
  frows : list (K * list A)
}.
Arguments fcolumns {L K A} _.
Arguments frows {L K A} _.

Definition index {L K A} (fr : Frame L K A) : list K := (frows fr).*1.
Definition values {L K A} (fr : Frame L K A) : list (list A) := (frows fr).*2.

(** ** groupby

    [groupby] sorts the distinct keys ([sort=True]); the rows of a group keep
    their order in the frame. *)

Section GroupBy.
Context {K : Type} `{EqDecision K} (R : relation K) `{!RelDecision R}.

Definition group_keys (ks : list K) : list K := merge_sort R (remove_dups ks).

Definition group_of (key : Event -> K) (k : K) (es : list Event) : list Event :=
  filter (fun e => key e = k) es.

Definition group_rows (key : Event -> K) (es : list Event)
  : list (K * list Event) :=
  (fun k => (k, group_of key k es)) <$> group_keys (key <$> es).

End GroupBy.

(** Keys of [groupby(['course_id', 'chapter_id'])]: pairs, ordered by course
    (code units of the text) and then by chapter. *)

Definition pair_le (a b : string * Z) : Prop :=
  match String.compare a.1 b.1 with
  | Lt => True
  | Eq => (a.2 <= b.2)%Z
  | Gt => False
  end.

#[global] Instance pair_le_dec : RelDecision pair_le.
Proof.
  intros a b. unfold pair_le. destruct (String.compare a.1 b.1); apply _.
Defined.

Definition chapter_key (e : Event) : string * Z := (course_id e, chapter_id e).

Definition missing (names : list string) (df : DataFrame) : list string :=
  filter (fun c => c ∉ columns df) names.

Definition groupby_student_id (df : DataFrame)
  : Except (list (Z * list Event)) :=
  match missing ["student_id"] df with
  | [] => Ok (group_rows Z.le student_id (rows df))
  | c :: _ => Raise (KeyError c)
  end.

(** [df.groupby(['course_id', 'chapter_id'])]: the two names are looked up
    among the columns.  (When a name is not a column pandas raises KeyError,
    unless the frame has exactly as many rows as the list has names: it then
    reads the names as one label per row.  The statements about the difficulty
    table are about frames that have both columns.) *)
Definition groupby_course_chapter (df : DataFrame)
  : Except (list (string * Z * list Event)) :=
  match missing ["course_id"; "chapter_id"] df with
  | [] => Ok (group_rows pair_le chapter_key (rows df))
  | c :: _ => Raise (KeyError c)
  end.

(** ** agg *)

Inductive aggfun := Mean | Min | Max | Std | Sum | First.

Definition aggname (f : aggfun) : string :=
  match f with
  | Mean => "mean" | Min => "min" | Max => "max"
  | Std => "std" | Sum => "sum" | First => "first"
  end.

Definition aggspec := list (string * list aggfun).

Definition agg_columns (spec : aggspec) : list (string * string) :=
  flat_map (fun cf => (fun f => (cf.1, aggname f)) <$> cf.2) spec.

(** The requested columns of dtype [object].  pandas refuses [mean] and [std]
    on such a column, whatever the group, and [agg] reports the first of them
    as a [TypeError].  Every column of this program that can hold text (score,
    time_spent) is reduced with [mean]; other reductions of a text column do
    not occur and are not told apart. *)

Definition text_columns (spec : aggspec) (df : DataFrame) : list string :=
  filter (fun c => existsb (fun e => is_text (cell_of c e)) (rows df) = true) spec.*1.

Section Program.
Variable sqrt : Qc -> Qc.

Definition nanstd (xs : list float) : float := sqrt <$> group_var 1 xs.

Definition reduce (f : aggfun) (xs : list float) : float :=
  match f with
  | Mean => nanmean xs
  | Min => nanmin xs
  | Max => nanmax xs
  | Std => nanstd xs
  | Sum => nansum xs
  | First => head (dropna xs)
  end.

Definition agg_row (spec : aggspec) (g : list Event) : list float :=
  flat_map (fun cf => (fun f => reduce f (series cf.1 g)) <$> cf.2) spec.

Definition agg {K} (spec : aggspec) (df : DataFrame)
    (groups : list (K * list Event)) : Except (Frame (string * string) K float) :=
  match missing spec.*1 df with
  | c :: _ => Raise (KeyError c)
  | [] =>
    match text_columns spec df with
    | c :: _ => Raise (TypeError c)
    | [] =>
      Ok {| fcolumns := agg_columns spec;
            frows := (fun kg : K * list Event => (kg.1, agg_row spec kg.2)) <$> groups |}
    end
  end.

(** ** Column labels: ['_'.join(col).strip() for col in columns] *)

Definition is_space (a : ascii) : bool :=
  let n := nat_of_ascii a in
  ((9 <=? n) && (n <=? 13) || (28 <=? n) && (n <=? 32))%nat.

Fixpoint lstrip (s : list ascii) : list ascii :=
  match s with
  | a :: s' => if is_space a then lstrip s' else s
  | [] => []
  end.

Definition strip (s : string) : string :=
  string_of_list_ascii
    (reverse (lstrip (reverse (lstrip (list_ascii_of_string s))))).

Definition join_label (col : string * string) : string :=
  strip (col.1 +:+ "_" +:+ col.2).

Definition join_columns {K A} (fr : Frame (string * string) K A)
  : Frame string K A :=
  {| fcolumns := join_label <$> fcolumns fr; frows := frows fr |}.

Definition rename {K A} (old new : string) (fr : Frame string K A)
  : Frame string K A :=
  {| fcolumns := (fun c => if decide (c = old) then new else c) <$> fcolumns fr;
     frows := frows fr |}.

Definition fillna {L K} (v : Qc) (fr : Frame L K float) : Frame L K Qc :=
  {| fcolumns := fcolumns fr;
     frows := (fun kr : K * list float => (kr.1, default v <$> kr.2)) <$> frows fr |}.

(** [drop(columns=[label])] removes every column with that label and raises
    [KeyError] when there is none. *)

Definition keep {A} (mask : list bool) (xs : list A) : list A :=
  (filter (fun bx => bx.1 = true) (zip mask xs)).*2.

Definition drop {K A} (label : string) (fr : Frame string K A)
  : Except (Frame string K A) :=
  let mask := (fun c => bool_decide (c <> label)) <$> fcolumns fr in
  if decide (label ∈ fcolumns fr) then
    Ok {| fcolumns := keep mask (fcolumns fr);
          frows := (fun kr : K * list A => (kr.1, keep mask kr.2)) <$> frows fr |}
  else Raise (KeyError label).

(** ** Feature aggregation *)

(** [preprocess_student_data] (app/main.py). *)

Definition inference_spec : aggspec :=
  [("score", [Mean; Min; Max; Std]);
   ("time_spent", [Sum; Mean; Std]);
   ("chapter_id", [Max])].

Definition preprocess_student_data (df : DataFrame)
  : Except (Frame string Z Qc) :=
  grouped ← groupby_student_id df;
  student_features ← agg inference_spec df grouped;
  let student_features := join_columns student_features in
  Ok (fillna 0 student_features).

(** The feature engineering of [train_models] (scripts/train_models.py), up
    to the matrix [X]. *)

Definition training_spec : aggspec :=
  [("score", [Mean; Min; Max; Std]);
   ("time_spent", [Sum; Mean; Std]);
   ("chapter_id", [Max]);
   ("completed", [First])].

Definition train_features (df : DataFrame) : Except (Frame string Z Qc) :=
  grouped ← groupby_student_id df;
  student_features ← agg training_spec df grouped;
  let student_features := join_columns student_features in
  let student_features := rename "completed_first" "completed" student_features in
  let student_features := fillna 0 student_features in
  drop "completed" student_features.

(** ** StandardScaler

    [fit] stores, for each column, the mean and the population standard
    deviation; a standard deviation of 0 is stored as the scale 1.  [transform]
    subtracts the stored mean and divides by the stored scale.  Both refuse a
    matrix without rows, and [transform] one whose width is not that of the
    fitted data. *)

Record StandardScaler := {
  mean_ : list Qc;
  scale_ : list Qc
}.

Definition matrix := list (list Qc).

Definition column (j : nat) (X : matrix) : list Qc :=
  (fun r => nth j r 0) <$> X.





Definition transform_row (s : StandardScaler) (r : list Qc) : list Qc :=
  zip_with (fun xm sc => (xm.1 - xm.2) / sc) (zip r (mean_ s)) (scale_ s).

Definition transform (s : StandardScaler) (X : matrix) : Except matrix :=
  match X with
  | [] => Raise ValueError
  | _ =>
    if forallb (fun r => bool_decide (length r = length (mean_ s))) X
    then Ok (transform_row s <$> X)
    else Raise ValueError
  end.

(** ** The classifier and the loaded artifacts

    The trained forest is a pair of functions of the scaled matrix. *)

Record Classifier := {
  predict : matrix -> list Z;
  predict_proba : matrix -> list (list Qc)
}.

Record Artifacts := {
  model : Classifier;
  scaler : StandardScaler
}.

(** ** /predict *)

Record PredictionResult := {
  r_student_id : Z;
  completion_probability : Qc;
  predicted_completion : bool;
  risk_level : string
}.

Inductive detail :=
| ModelNotLoaded
| ErrorProcessingFile (e : exn).

Inductive Response :=
| JSONResponse (predictions : list PredictionResult)
| HTTPException (status_code : Z) (d : detail).

(** [round(x, 2)]: to the nearest multiple of 1/100, a tie to the even one. *)

Definition round_half_even (y : Qc) : Z :=
  let n := Qfloor y in
  let r := y - Qc_of_Z n in
  if decide (r < Q2Qc (1 # 2)) then n
  else if decide (Q2Qc (1 # 2) < r) then (n + 1)%Z
  else if Z.even n then n else (n + 1)%Z.

Definition round2 (x : Qc) : Qc :=
  Qc_of_Z (round_half_even (x * Q2Qc 100)) / Q2Qc 100.

Definition risk (prob : Qc) : string :=
  let risk_level := "Low" in
  if decide (prob < Q2Qc (3 # 10)) then "High"
  else if decide (prob < Q2Qc (7 # 10)) then "Medium"
  else risk_level.

Definition at_index {A} (xs : list A) (i : nat) : Except A :=
  match xs !! i with
  | Some x => Ok x
  | None => Raise IndexError
  end.

Definition result_row (predictions : list Z) (probabilities : list Qc)
    (idx : nat) (sid : Z) : Except PredictionResult :=
  prob ← at_index probabilities idx;
  pred ← at_index predictions idx;
  Ok {| r_student_id := sid;
        completion_probability := round2 prob;
        predicted_completion := bool_decide (pred <> 0%Z);
        risk_level := risk prob |}.

Fixpoint results_loop (predictions : list Z) (probabilities : list Qc)
    (idx : nat) (ids : list Z) : Except (list PredictionResult) :=
  match ids with
  | [] => Ok []
  | sid :: ids' =>
    r ← result_row predictions probabilities idx sid;
    rs ← results_loop predictions probabilities (S idx) ids';
    Ok (r :: rs)
  end.

Fixpoint second_column (P : list (list Qc)) : Except (list Qc) :=
  match P with
  | [] => Ok []
  | r :: P' =>
    p ← at_index r 1;
    ps ← second_column P';
    Ok (p :: ps)
  end.

Definition predict_body (a : Artifacts) (df : DataFrame)
  : Except (list PredictionResult) :=
  features ← preprocess_student_data df;
  X_scaled ← transform (scaler a) (values features);
  let predictions := predict (model a) X_scaled in
  probabilities ← second_column (predict_proba (model a) X_scaled);
  results_loop predictions probabilities 0 (index features).

Definition predict_completion (loaded : option Artifacts) (df : DataFrame)
  : Response :=
  match loaded with
  | None => HTTPException 500 ModelNotLoaded
  | Some a =>
    match predict_body a df with
    | Ok results => JSONResponse results
    | Raise e => HTTPException 400 (ErrorProcessingFile e)
    end
  end.


(** ** Chapter difficulty (scripts/train_models.py)

    In the arithmetic below [None] is a float that is not a finite number: NaN,
    or the infinity of a division by zero. *)

Definition fadd (x y : float) : float := a ← x; b ← y; Some (a + b).
Definition fsub (x y : float) : float := a ← x; b ← y; Some (a - b).
Definition fmul (x y : float) : float := a ← x; b ← y; Some (a * b).
Definition fdiv (x y : float) : float :=
  a ← x; b ← y; if decide (b = 0) then None else Some (a / b).

Record DifficultyRecord := {
  d_course_id : string;
  d_chapter_id : Z;
  avg_score : float;
  avg_time : float;
  difficulty_score : float
}.

Definition difficulty_spec : aggspec :=
  [("score", [Mean]); ("time_spent", [Mean])].

Definition cell_at (j : nat) (r : list float) : float := mjoin (r !! j).

Definition difficulty_row (tmax : float) (kr : string * Z * list float)
  : DifficultyRecord :=
  let s := cell_at 0 kr.2 in
  let t := cell_at 1 kr.2 in
  {| d_course_id := kr.1.1;
     d_chapter_id := kr.1.2;
     avg_score := s;
     avg_time := t;
     difficulty_score :=
       fadd (fsub (Some (Q2Qc 100)) s) (fmul (fdiv t tmax) (Some (Q2Qc 50))) |}.

Definition difficulty_stats (df : DataFrame) : Except (list DifficultyRecord) :=
  grouped ← groupby_course_chapter df;
  stats ← agg difficulty_spec df grouped;
  let tmax := nanmax (cell_at 1 <$> values stats) in
  Ok (difficulty_row tmax <$> frows stats).

End Program.

(** ** Reading an aggregated frame, and well-formed batches *)

Definition position (label : string) (cols : list string) : option nat :=
  fst <$> list_find (fun c => c = label) cols.

Definition row_of {L K A} `{EqDecision K} (fr : Frame L K A) (k : K)
  : option (list A) :=
  (fun ikr : nat * (K * list A) => ikr.2.2)
    <$> list_find (fun kr : K * list A => kr.1 = k) (frows fr).

(** [fr.loc[k, label]] *)
Definition loc {K A} `{EqDecision K} (fr : Frame string K A) (k : K)
    (label : string) : option A :=
  r ← row_of fr k; j ← position label (fcolumns fr); r !! j.

Definition feature_names : list string :=
  ["score_mean"; "score_min"; "score_max"; "score_std";
   "time_spent_sum"; "time_spent_mean"; "time_spent_std"; "chapter_id_max"].

(** The columns the student-level aggregation reads. *)
Definition aggregated_columns : list string :=
  ["student_id"; "score"; "time_spent"; "chapter_id"].

Definition numeric_row (e : Event) : bool :=
  negb (is_text (score e)) && negb (is_text (time_spent e)).

(** A batch the aggregation accepts: the columns it reads are present, and
    score and time_spent hold numbers or missing values only. *)
Definition well_formed (df : DataFrame) : bool :=
  forallb (fun c => bool_decide (c ∈ columns df)) aggregated_columns
  && forallb numeric_row (rows df).

(** The events of one student, and the valid (non-missing) values of a
    column among them. *)
Definition events_of (sid : Z) (df : DataFrame) : list Event :=
  filter (fun e => student_id e = sid) (rows df).

Definition valid (name : string) (es : list Event) : list Qc :=
  dropna (series name es).

(** A classifier that answers one label and one row of two class
    probabilities for each row it is given. *)
Definition one_answer_per_row (m : Classifier) : Prop :=
  forall X : matrix,
    length (predict m X) = length X /\
    length (predict_proba m X) = length X /\
    Forall (fun r => length r = 2%nat) (predict_proba m X).

Definition fitted_on_features (s : StandardScaler) : Prop :=
  length (mean_ s) = 8%nat /\ length (scale_ s) = 8%nat.

(** The row of one student: the eight aggregates over all of that student's
    events, NaN replaced by 0; and the students of a batch, in the order of
    the aggregated frame. *)
Definition student_row (sqrt : Qc -> Qc) (df : DataFrame) (sid : Z)
  : Z * list Qc :=
  (sid, default 0 <$> agg_row sqrt inference_spec (events_of sid df)).

Definition student_ids (df : DataFrame) : list Z :=
  group_keys Z.le (student_id <$> rows df).

(** The sample standard deviation of the valid values, 0 when there are fewer
    than two of them. *)
Definition sample_std_or_zero (sqrt : Qc -> Qc) (ys : list Qc) : Qc :=
  if decide (length ys <= 1)%nat then 0 else sqrt (sample_variance ys).

(** A square root for the examples: exact on the squares of rationals. *)
Definition sqrtq (x : Qc) : Qc :=
  Q2Qc (Z.sqrt (Qnum x * Zpos (Qden x)) # Qden x).

Definition ev (sid : Z) (c : string) (ch : Z) (t s : Z) : Event :=
  {| student_id := sid; course_id := c; chapter_id := ch;
     time_spent := Num (Qc_of_Z t); score := Num (Qc_of_Z s); completed := 1 |}.

(** The batch of the end-to-end scenario: student 1 has three events, student
    2 has one, uploaded out of order. *)
Definition batch_rows : list Event :=
  [ev 2 "C101" 1 5 40; ev 1 "C101" 1 10 80; ev 1 "C101" 2 12 85;
   ev 1 "C101" 3 11 90].

Definition batch : DataFrame :=
  {| columns := ["student_id"; "course_id"; "chapter_id"; "time_spent"; "score"];
     rows := batch_rows |}.

Definition training_batch : DataFrame :=
  {| columns := ["student_id"; "course_id"; "chapter_id"; "time_spent"; "score";
                 "completed"];
     rows := batch_rows |}.

(** The aggregates of the valid values as one would write them by hand. *)
Definition mean_or_zero (ys : list Qc) : Qc :=
  match ys with
  | [] => 0
  | _ => qsum ys / Qc_of_nat (length ys)
  end.

Definition is_least (m : Qc) (ys : list Qc) : Prop :=
  m ∈ ys /\ forall y, y ∈ ys -> m <= y.

Definition is_greatest (m : Qc) (ys : list Qc) : Prop :=
  m ∈ ys /\ forall y, y ∈ ys -> y <= m.

(** Batches the difficulty table accepts, the chapters of a batch and the
    events of one chapter. *)
Definition difficulty_columns : list string :=
  ["course_id"; "chapter_id"; "score"; "time_spent"].

Definition well_formed_difficulty (df : DataFrame) : bool :=
  forallb (fun c => bool_decide (c ∈ columns df)) difficulty_columns
  && forallb numeric_row (rows df).

Definition chapter_keys (df : DataFrame) : list (string * Z) :=
  group_keys pair_le (chapter_key <$> rows df).

Definition events_of_chapter (k : string * Z) (df : DataFrame) : list Event :=
  filter (fun e => chapter_key e = k) (rows df).

Definition record_key (r : DifficultyRecord) : string * Z :=
  (d_course_id r, d_chapter_id r).

(** The mean of the valid values, undefined when there is none. *)
Definition mean_of (ys : list Qc) : float :=
  match ys with
  | [] => None
  | _ => Some (qsum ys / Qc_of_nat (length ys))
  end.

(** The two averages of one chapter, and the largest average time of the
    batch. *)
Definition chapter_stats (df : DataFrame) (k : string * Z)
  : string * Z * list float :=
  (k, [nanmean (series "score" (events_of_chapter k df));
       nanmean (series "time_spent" (events_of_chapter k df))]).

Definition max_avg_time (df : DataFrame) : float :=
  nanmax ((fun k => nanmean (series "time_spent" (events_of_chapter k df)))
            <$> chapter_keys df).


(** Artifacts for the examples: a scaler that leaves its eight inputs as they
    are, and a classifier that answers label 1 with probability 4/5. *)
Definition unit_scaler : StandardScaler :=
  {| mean_ := replicate 8 0; scale_ := replicate 8 1 |}.

Definition constant_classifier : Classifier :=
  {| predict := fun X => (fun _ => 1%Z) <$> X;
     predict_proba := fun X => (fun _ => [Q2Qc (1 # 5); Q2Qc (4 # 5)]) <$> X |}.

Definition example_artifacts : Artifacts :=
  {| model := constant_classifier; scaler := unit_scaler |}.

(** The batch of the scenario, uploaded without its course_id column. *)
Definition batch_without_course : DataFrame :=
  {| columns := ["student_id"; "chapter_id"; "time_spent"; "score"];
     rows := batch_rows |}.



Definition batch_without_score : DataFrame :=
  {| columns := ["student_id"; "course_id"; "chapter_id"; "time_spent"];
     rows := batch_rows |}.

(** An upload with the header of the scenario and no data row. *)
Definition header_only : DataFrame :=
  {| columns := columns batch; rows := [] |}.

(** The valid scores and times of a list of events, read off the cells one
    event at a time: a number counts, a missing value or text does not. *)
Fixpoint valid_scores (es : list Event) : list Qc :=
  match es with
  | [] => []
  | e :: es' =>
    match score e with
    | Num x => x :: valid_scores es'
    | _ => valid_scores es'
    end
  end.

Fixpoint valid_times (es : list Event) : list Qc :=
  match es with
  | [] => []
  | e :: es' =>
    match time_spent e with
    | Num x => x :: valid_times es'
    | _ => valid_times es'
    end
  end.

(** pandas holds a column of integers without a missing value as int64 and
    adds it modulo 2^64.  The sum of a group is the sum of its values when the
    time_spent column of the frame holds a missing value or a fraction (the
    column is then float64), or when its values and the sum are in the range
    of int64. *)
Definition fraction_or_missing (c : cell) : bool :=
  match c with
  | Num x => negb (Pos.eqb (Qden x) 1)
  | NaN => true
  | Str _ => false
  end.

Definition in_int64 (x : Qc) : Prop :=
  Qc_of_Z (- 2 ^ 63) <= x /\ x < Qc_of_Z (2 ^ 63).

Definition sum_not_wrapped (df : DataFrame) (total : Qc) : Prop :=
  (exists e, e ∈ rows df /\ fraction_or_missing (time_spent e) = true)
  \/ (Forall (fun e => forall x, time_spent e = Num x -> in_int64 x) (rows df)
      /\ in_int64 total).


(** A batch with missing cells: student 1 misses the score of chapter 2 and
    the time of chapter 3; the only score of student 2 is missing. *)
Definition evc (sid : Z) (c : string) (ch : Z) (t s : cell) : Event :=
  {| student_id := sid; course_id := c; chapter_id := ch;
     time_spent := t; score := s; completed := 1 |}.

Definition batch_with_missing : DataFrame :=
  {| columns := columns batch;
     rows := [evc 2 "C101" 1 (Num (Q2Qc 5)) NaN;
              evc 1 "C101" 1 (Num (Q2Qc 10)) (Num (Q2Qc 80));
              evc 1 "C101" 2 (Num (Q2Qc 12)) NaN;
              evc 1 "C101" 3 NaN (Num (Q2Qc 90))] |}.

(** ** The averages in binary64

    The machine computes the averages of the difficulty table in binary64.
    pandas' grouped mean goes through the rows in their order and adds the
    valid values of a group, carrying a compensation term, then divides the
    sum by their number.  [plain_mean] is the same loop without the
    compensation term. *)

Module Binary64.
Import PrimFloat.
#[local] Set Warnings "-inexact-float".

Record Row := {
  course_id : string;
  chapter_id : Z;
  time_spent : PrimFloat.float;
  score : PrimFloat.float
}.

Definition dropna (xs : list PrimFloat.float) : list PrimFloat.float :=
  List.filter (fun x => negb (is_nan x)) xs.

Definition count (xs : list PrimFloat.float) : PrimFloat.float :=
  of_uint63 (Uint63.of_Z (Z.of_nat (length xs))).

(** One turn of the loop: [sumx] and [compensation] before and after the
    value [val]. *)
Definition add_compensated (acc : PrimFloat.float * PrimFloat.float)
    (val : PrimFloat.float) : PrimFloat.float * PrimFloat.float :=
  let '(sumx, compensation) := acc in
  let y := (val - compensation)%float in
  let t := (sumx + y)%float in
  let c := (t - sumx - y)%float in
  (t, if is_nan c then 0%float else c).

Definition sum (xs : list PrimFloat.float) : PrimFloat.float :=
  (fold_left add_compensated xs (0%float, 0%float)).1.

Definition mean (xs : list PrimFloat.float) : PrimFloat.float :=
  let ys := dropna xs in (sum ys / count ys)%float.



Definition group (k : string * Z) (rows : list Row) : list Row :=
  List.filter (fun r => bool_decide ((course_id r, chapter_id r) = k)) rows.

(** The avg_score of the record of the pair [k], with either mean. *)
Definition avg_score (average : list PrimFloat.float -> PrimFloat.float)
    (k : string * Z) (rows : list Row) : PrimFloat.float :=
  average (score <$> group k rows).




End Binary64.

(** ** Definitions for the further properties *)

(** How severe a risk tier is. *)
Definition severity (level : string) : nat :=
  if decide (level = "High") then 2
  else if decide (level = "Medium") then 1
  else 0.

(** Two chapters studied for the same time, with average scores 90 and 50. *)
Definition two_chapters : DataFrame :=
  {| columns := columns batch;
     rows := [ev 1 "C101" 1 10 90; ev 1 "C101" 3 10 50] |}.

(** Two students, one event each: the same time, scores 90 and 50. *)
Definition two_students : DataFrame :=
  {| columns := columns training_batch;
     rows := [ev 1 "C101" 1 10 90; ev 2 "C101" 3 10 50] |}.

(** The start of [app/main.py]: the model, the scaler and the difficulty
    table are loaded in one [try] block; when one of the loads raises, the
    three names are all set to [None].  The arguments are the outcomes of the
    three loads. *)
Record Globals := {
  g_model : option Classifier;
  g_scaler : option StandardScaler;
  g_difficulty_stats : option (list DifficultyRecord)
}.

Definition load_artifacts (model : Except Classifier)
    (scaler : Except StandardScaler)
    (difficulty_stats : Except (list DifficultyRecord)) : Globals :=
  match (m ← model; s ← scaler; d ← difficulty_stats; Ok (m, s, d)) with
  | Ok (m, s, d) =>
      {| g_model := Some m; g_scaler := Some s; g_difficulty_stats := Some d |}
  | Raise _ =>
      {| g_model := None; g_scaler := None; g_difficulty_stats := None |}
  end.

(** The model and scaler that /predict works with.  After [load_artifacts]
    the two are present together or absent together. *)
Definition serving (g : Globals) : option Artifacts :=
  m ← g_model g; s ← g_scaler g; Some {| model := m; scaler := s |}.

(** A classifier that was trained on one class only: its probability rows
    have a single column. *)
Definition one_class_classifier : Classifier :=
  {| predict := fun X => (fun _ => 1%Z) <$> X;
     predict_proba := fun X => (fun _ => [Q2Qc 1]) <$> X |}.

(** ** Facts about the reductions *)

Lemma Qc_of_nat_0 : Qc_of_nat 0 = 0.
Proof. apply Z2Qc_inj_0. Qed.

Lemma Qc_of_nat_S n : Qc_of_nat (S n) = Qc_of_nat n + 1.
Proof.
  unfold Qc_of_nat. rewrite Nat2Z.inj_succ, <- Z.add_1_r, Z2Qc_inj_add.
  by rewrite Z2Qc_inj_1.
Qed.

Lemma Qc_of_nat_nonneg n : 0 <= Qc_of_nat n.
Proof.
  unfold Qc_of_nat. rewrite <- Z2Qc_inj_0. apply (proj1 (Z2Qc_inj_le _ _)). lia.
Qed.

Lemma Qc_of_nat_S_ne0 n : Qc_of_nat (S n) <> 0.
Proof.
  unfold Qc_of_nat. rewrite <- Z2Qc_inj_0. intros H%Z2Qc_inj. lia.
Qed.

Lemma Qc_of_nat_sub1 n : Qc_of_nat (S n - 1) = Qc_of_nat (S n) - 1.
Proof.
  rewrite Qc_of_nat_S. replace (S n - 1)%nat with n by lia. ring.
Qed.

Lemma qsum_nil : qsum [] = 0.
Proof. done. Qed.

Lemma qsum_cons y ys : qsum (y :: ys) = y + qsum ys.
Proof. done. Qed.

Lemma qsum_app ys zs : qsum (ys ++ zs) = qsum ys + qsum zs.
Proof.
  induction ys as [|y ys IH]; simpl.
  - ring.
  - rewrite IH. ring.
Qed.

Lemma qsum_Permutation ys zs : ys ≡ₚ zs -> qsum ys = qsum zs.
Proof.
  induction 1 as [|x l l' _ IH|x y l|l l' l'' _ IH1 _ IH2]; simpl.
  - done.
  - by rewrite IH.
  - ring.
  - by rewrite IH1.
Qed.

Lemma sq_dev_sum_expand mu ys :
  sq_dev_sum mu ys
  = qsum_sq ys - (1 + 1) * mu * qsum ys + Qc_of_nat (length ys) * mu * mu.
Proof.
  unfold sq_dev_sum, qsum_sq.
  induction ys as [|y ys IH].
  - rewrite !fmap_nil, !qsum_nil. cbn [length]. rewrite Qc_of_nat_0. ring.
  - rewrite !fmap_cons, !qsum_cons, IH. cbn [length].
    rewrite Qc_of_nat_S. ring.
Qed.

(** Invariant of the one-pass accumulation: after the values [ys], [nobs] is
    their number, [nobs * mean] their sum and [out] the sum of squares minus
    [nobs * mean^2]. *)

Lemma var_fold_invariant ys st :
  let st' := foldl var_step st ys in
  nobs st' = (nobs st + length ys)%nat /\
  forall s1 s2,
    Qc_of_nat (nobs st) * vmean st = s1 ->
    vout st = s2 - Qc_of_nat (nobs st) * vmean st * vmean st ->
    Qc_of_nat (nobs st') * vmean st' = s1 + qsum ys /\
    vout st' = s2 + qsum_sq ys - Qc_of_nat (nobs st') * vmean st' * vmean st'.
Proof.
  revert st. induction ys as [|y ys IH]; intros st; cbn zeta.
  - cbn [foldl length]. split; [lia|]. intros s1 s2 H1 H2.
    unfold qsum_sq. rewrite fmap_nil, qsum_nil.
    split; [rewrite H1; ring | rewrite H2; ring].
  - cbn [foldl length]. destruct (IH (var_step st y)) as [Hn Hinv].
    cbn zeta in Hn, Hinv. split.
    { rewrite Hn. simpl. lia. }
    intros s1 s2 H1 H2.
    destruct (Hinv (s1 + y) (s2 + y * y)) as [G1 G2].
    + unfold var_step; cbn [nobs vmean].
      pose proof (Qc_of_nat_S_ne0 (nobs st)) as Hne.
      rewrite <- H1. rewrite Qc_of_nat_S in *. field. done.
    + unfold var_step; cbn [nobs vmean vout].
      pose proof (Qc_of_nat_S_ne0 (nobs st)) as Hne.
      rewrite H2. rewrite Qc_of_nat_S in *. field. done.
    + split.
      * rewrite G1, qsum_cons. ring.
      * rewrite G2. unfold qsum_sq. rewrite fmap_cons, qsum_cons. ring.
Qed.

Lemma var_fold_spec ys :
  let st := foldl var_step var_init ys in
  nobs st = length ys /\
  (ys <> [] -> vmean st = qsum ys / Qc_of_nat (length ys)) /\
  (ys <> [] -> vout st = sq_dev_sum (qsum ys / Qc_of_nat (length ys)) ys).
Proof.
  cbn zeta. destruct (var_fold_invariant ys var_init) as [Hn Hinv].
  cbn zeta in Hn, Hinv. simpl in Hn.
  destruct (Hinv 0 0) as [G1 G2].
  { simpl. ring. }
  { simpl. ring. }
  rewrite Hn in G1, G2. split; [done|].
  assert (Hm : ys <> [] ->
    vmean (foldl var_step var_init ys) = qsum ys / Qc_of_nat (length ys)).
  { intros Hne. destruct ys as [|y ys]; [done|].
    pose proof (Qc_of_nat_S_ne0 (length ys)) as Hlen. cbn [length] in *.
    rewrite <- (Qcdiv_mult_l (vmean _) (Qc_of_nat (S (length ys)))) by done.
    f_equal. rewrite Qcmult_comm, G1. ring. }
  split; [done|]. intros Hne.
  rewrite G2, sq_dev_sum_expand, Hm by done.
  destruct ys as [|y ys]; [done|].
  pose proof (Qc_of_nat_S_ne0 (length ys)) as Hlen. cbn [length] in *.
  field. done.
Qed.

(** [group_var] with [ddof = 1] is the sample variance: the squared deviations
    from the mean divided by [n - 1]. *)

Lemma group_var_sample xs :
  group_var 1 xs =
    if decide (length (dropna xs) <= 1)%nat then None
    else Some (sample_variance (dropna xs)).
Proof.
  unfold group_var. destruct (var_fold_spec (dropna xs)) as (Hn & _ & Hout).
  cbn zeta in *. rewrite Hn. case_decide; [done|].
  f_equal. unfold sample_variance.
  destruct (dropna xs) as [|y ys] eqn:E; [simpl in *; lia|].
  rewrite Hout by done. cbn [length]. by rewrite Qc_of_nat_sub1.
Qed.

(** ** Facts about groupby *)

Section GroupByFacts.
Context {K : Type} `{EqDecision K} (R : relation K) `{!RelDecision R}.

Lemma elem_of_group_keys k ks : k ∈ group_keys R ks <-> k ∈ ks.
Proof.
  unfold group_keys. rewrite merge_sort_Permutation. apply elem_of_remove_dups.
Qed.

Lemma NoDup_group_keys ks : NoDup (group_keys R ks).
Proof.
  unfold group_keys. rewrite merge_sort_Permutation. apply NoDup_remove_dups.
Qed.

Lemma group_keys_sorted `{!Transitive R, !Total R} ks :
  StronglySorted R (group_keys R ks).
Proof. unfold group_keys. by apply StronglySorted_merge_sort. Qed.

Lemma group_keys_Permutation `{!Transitive R, !Total R, !AntiSymm (=) R} ks ks' :
  ks ≡ₚ ks' -> group_keys R ks = group_keys R ks'.
Proof.
  intros Hp. apply (StronglySorted_unique R); try apply group_keys_sorted.
  unfold group_keys. rewrite !merge_sort_Permutation.
  apply NoDup_Permutation; try apply NoDup_remove_dups.
  intros k. rewrite !elem_of_remove_dups. by rewrite Hp.
Qed.


Lemma index_group_rows (key : Event -> K) es :
  (group_rows R key es).*1 = group_keys R (key <$> es).
Proof.
  unfold group_rows. rewrite <- list_fmap_compose.
  rewrite <- (list_fmap_id (group_keys R (key <$> es))) at 2.
  by apply list_fmap_ext.
Qed.

End GroupByFacts.

Lemma string_compare_lt_trans a b c :
  String.compare a b = Lt -> String.compare b c = Lt -> String.compare a c = Lt.
Proof.
  intros H1 H2. apply String_as_OT.cmp_lt.
  apply String_as_OT.lt_trans with b; by apply String_as_OT.cmp_lt.
Qed.

#[global] Instance pair_le_total : Total pair_le.
Proof.
  intros [a x] [b y]. unfold pair_le. cbn [fst snd].
  rewrite (String.compare_antisym b a).
  destruct (String.compare a b); cbn [CompOpp]; auto. lia.
Qed.

#[global] Instance pair_le_trans : Transitive pair_le.
Proof.
  intros [a x] [b y] [c z]. unfold pair_le. cbn [fst snd].
  destruct (String.compare a b) eqn:Hab; [|intros _|done].
  - apply String.compare_eq_iff in Hab as ->.
    destruct (String.compare b c); [lia|done|done].
  - destruct (String.compare b c) eqn:Hbc; [|intros _|done].
    + apply String.compare_eq_iff in Hbc as ->. by rewrite Hab.
    + by rewrite (string_compare_lt_trans a b c).
Qed.

#[global] Instance pair_le_antisymm : AntiSymm (=) pair_le.
Proof.
  intros [a x] [b y]. unfold pair_le. cbn [fst snd].
  rewrite (String.compare_antisym b a).
  destruct (String.compare a b) eqn:Hab; cbn [CompOpp]; [|done|done].
  apply String.compare_eq_iff in Hab as ->. intros. f_equal. lia.
Qed.

(** ** Facts about the aggregation *)

Lemma get_student_id e : cell_of "student_id" e = Num (Qc_of_Z (student_id e)).
Proof. reflexivity. Qed.
Lemma get_chapter_id e : cell_of "chapter_id" e = Num (Qc_of_Z (chapter_id e)).
Proof. reflexivity. Qed.
Lemma get_time_spent e : cell_of "time_spent" e = time_spent e.
Proof. reflexivity. Qed.
Lemma get_score e : cell_of "score" e = score e.
Proof. reflexivity. Qed.
Lemma get_completed e : cell_of "completed" e = Num (Qc_of_Z (completed e)).
Proof. reflexivity. Qed.

Lemma missing_nil names df :
  missing names df = [] <-> forall c, c ∈ names -> c ∈ columns df.
Proof.
  unfold missing. induction names as [|n names IH].
  - split; [intros _ c Hc; by apply elem_of_nil in Hc|done].
  - rewrite filter_cons. destruct (decide (n ∉ columns df)) as [Hn|Hn].
    + split; [done|]. intros Hall. destruct Hn. apply Hall. left.
    + rewrite IH. apply dec_stable in Hn. split.
      * intros Hall c [->|Hc]%elem_of_cons; auto.
      * intros Hall c Hc. apply Hall. by right.
Qed.

Lemma missing_app names names' df :
  missing (names ++ names') df = missing names df ++ missing names' df.
Proof. unfold missing. apply filter_app. Qed.

Lemma text_columns_app spec spec' df :
  text_columns (spec ++ spec') df = text_columns spec df ++ text_columns spec' df.
Proof. unfold text_columns. by rewrite fmap_app, filter_app. Qed.

Lemma existsb_false {A} (f : A -> bool) (l : list A) :
  (forall x, x ∈ l -> f x = false) -> existsb f l = false.
Proof.
  induction l as [|x l IH]; intros H; [done|]. cbn [existsb].
  rewrite (H x) by left. apply IH. intros y Hy. apply H. by right.
Qed.

Lemma well_formed_columns df c :
  well_formed df = true -> c ∈ aggregated_columns -> c ∈ columns df.
Proof.
  unfold well_formed. intros [H _]%andb_prop Hc.
  rewrite forallb_forall in H. apply list_elem_of_In in Hc.
  specialize (H c Hc). by apply bool_decide_eq_true in H.
Qed.

Lemma well_formed_numeric df e :
  well_formed df = true -> e ∈ rows df ->
  is_text (score e) = false /\ is_text (time_spent e) = false.
Proof.
  unfold well_formed. intros [_ H]%andb_prop He.
  rewrite forallb_forall in H. apply list_elem_of_In in He.
  specialize (H e He). unfold numeric_row in H.
  apply andb_prop in H as [H1 H2]. by rewrite negb_true_iff in H1, H2.
Qed.

Lemma text_columns_nil spec df :
  (forall c e, c ∈ spec.*1 -> e ∈ rows df -> is_text (cell_of c e) = false) ->
  text_columns spec df = [].
Proof.
  unfold text_columns. induction (spec.*1) as [|c cs IH]; intros H; [done|].
  rewrite filter_cons_False.
  - apply IH. intros c' e Hc He. apply H; [by right|done].
  - rewrite existsb_false; [done|]. intros e He. apply H; [left|done].
Qed.

Lemma text_columns_inference df :
  well_formed df = true -> text_columns inference_spec df = [].
Proof.
  intros Hwf. apply text_columns_nil. intros c e Hc He.
  destruct (well_formed_numeric df e Hwf He) as [Hs Ht].
  change (inference_spec.*1) with ["score"; "time_spent"; "chapter_id"] in Hc.
  rewrite !elem_of_cons in Hc. destruct Hc as [->|[->|[->|Hc]]].
  - by rewrite get_score.
  - by rewrite get_time_spent.
  - by rewrite get_chapter_id.
  - by apply elem_of_nil in Hc.
Qed.

Section ProgramFacts.
Variable sqrt : Qc -> Qc.

Lemma preprocess_ok df :
  well_formed df = true ->
  preprocess_student_data sqrt df =
    Ok {| fcolumns := feature_names;
          frows := student_row sqrt df <$> student_ids df |}.
Proof.
  intros Hwf. unfold preprocess_student_data, groupby_student_id.
  assert (Hm1 : missing ["student_id"] df = []).
  { apply missing_nil. intros c ->%list_elem_of_singleton.
    apply well_formed_columns; [done|]. left. }
  rewrite Hm1. cbn [mbind except_bind]. unfold agg.
  assert (Hm2 : missing inference_spec.*1 df = []).
  { apply missing_nil. intros c Hc. apply well_formed_columns; [done|].
    change (inference_spec.*1) with ["score"; "time_spent"; "chapter_id"] in Hc.
    unfold aggregated_columns. rewrite !elem_of_cons in Hc.
    destruct Hc as [->|[->|[->|Hc]]]; [| | |by apply elem_of_nil in Hc];
      rewrite !elem_of_cons; auto. }
  rewrite Hm2, text_columns_inference by done.
  cbn [mbind except_bind]. unfold fillna, join_columns. cbn [fcolumns frows].
  f_equal. f_equal.
  unfold group_rows, student_ids. rewrite <- !list_fmap_compose.
  by apply list_fmap_ext.
Qed.

End ProgramFacts.

(** ** Training and inference aggregate alike *)

Lemma agg_row_training sqrt g :
  agg_row sqrt training_spec g =
    agg_row sqrt inference_spec g ++ [reduce sqrt First (series "completed" g)].
Proof. reflexivity. Qed.

Lemma training_labels :
  (fun c : string => if decide (c = "completed_first") then "completed" else c)
    <$> (join_label <$> agg_columns training_spec)
  = feature_names ++ ["completed"].
Proof. vm_compute. reflexivity. Qed.

Lemma inference_labels :
  join_label <$> agg_columns inference_spec = feature_names.
Proof. vm_compute. reflexivity. Qed.

Lemma drop_mask :
  (fun c : string => bool_decide (c <> "completed"))
    <$> (feature_names ++ ["completed"])
  = [true; true; true; true; true; true; true; true; false].
Proof. vm_compute. reflexivity. Qed.

Lemma agg_row_inference_length sqrt g :
  length (agg_row sqrt inference_spec g) = 8%nat.
Proof. reflexivity. Qed.

Lemma keep_features {A} (r : list A) (x : A) :
  length r = 8%nat ->
  keep [true; true; true; true; true; true; true; true; false] (r ++ [x]) = r.
Proof.
  intros H. do 8 (destruct r as [|? r]; [done|]). by destruct r.
Qed.

Lemma missing_training df :
  "completed" ∈ columns df ->
  missing training_spec.*1 df = missing inference_spec.*1 df.
Proof.
  intros Hc.
  change (training_spec.*1) with (inference_spec.*1 ++ ["completed"]).
  rewrite missing_app.
  assert (H : missing ["completed"] df = []).
  { apply missing_nil. by intros c ->%list_elem_of_singleton. }
  by rewrite H, app_nil_r.
Qed.

Lemma text_columns_training df :
  text_columns training_spec df = text_columns inference_spec df.
Proof.
  change training_spec with (inference_spec ++ [("completed", [First])]).
  rewrite text_columns_app.
  rewrite (text_columns_nil [("completed", [First])]), app_nil_r; [done|].
  intros c e ->%list_elem_of_singleton _. by rewrite get_completed.
Qed.

(** C1.  On every table that has the [completed] column, the feature matrix of
    the training pipeline, after its [completed] column is dropped, is the
    matrix [preprocess_student_data] computes from the same table: the same
    column labels in the same order, the same students in the same order and
    the same values; and when one of them raises, the other raises the same
    exception. *)
Theorem train_features_eq_preprocess (sqrt : Qc -> Qc) (df : DataFrame) :
  "completed" ∈ columns df ->
  train_features sqrt df = preprocess_student_data sqrt df.
Proof.
  intros Hc. unfold train_features, preprocess_student_data.
  destruct (groupby_student_id df) as [grouped|e]; [|done].
  cbn [mbind except_bind]. unfold agg.
  rewrite missing_training, text_columns_training by done.
  destruct (missing inference_spec.*1 df); [|done].
  destruct (text_columns inference_spec df); [|done].
  cbn [mbind except_bind]. unfold drop, fillna, rename, join_columns.
  cbn [fcolumns frows]. rewrite training_labels, inference_labels, drop_mask.
  rewrite decide_True by (apply elem_of_app; right; left).
  f_equal. f_equal.
  rewrite <- !list_fmap_compose. apply list_fmap_ext. intros i [k g] _.
  cbn [compose fst snd]. apply (f_equal (pair k)).
  rewrite agg_row_training, fmap_app.
  apply keep_features. by rewrite length_fmap.
Qed.

Lemma train_features_eq_preprocess_witness :
  train_features sqrtq training_batch
  = preprocess_student_data sqrtq training_batch.
Proof.
  apply train_features_eq_preprocess.
  apply (bool_decide_unpack _). vm_compute. exact I.
Defined.

(** ** Reading the rows of the aggregated frame *)

Lemma list_find_key {K A} `{EqDecision K} (f : K -> K * A) (ks : list K) (k : K) :
  (forall k', (f k').1 = k') -> k ∈ ks ->
  (fun ikr : nat * (K * A) => ikr.2.2)
    <$> list_find (fun kr : K * A => kr.1 = k) (f <$> ks) = Some (f k).2.
Proof.
  intros Hf. induction ks as [|k' ks IH]; intros Hk.
  - by apply elem_of_nil in Hk.
  - cbn [fmap list_fmap list_find]. rewrite Hf.
    destruct (decide (k' = k)) as [->|Hne]; [done|].
    apply elem_of_cons in Hk as [->|Hk]; [done|].
    specialize (IH Hk). destruct (list_find _ (f <$> ks)) as [[i kr]|]; [|done].
    exact IH.
Qed.

Lemma row_of_student sqrt df sid :
  sid ∈ student_ids df ->
  row_of {| fcolumns := feature_names;
            frows := student_row sqrt df <$> student_ids df |} sid
  = Some (default 0 <$> agg_row sqrt inference_spec (events_of sid df)).
Proof.
  intros Hs. unfold row_of. cbn [frows].
  by rewrite (list_find_key (student_row sqrt df)).
Qed.

Lemma elem_of_student_ids df sid :
  sid ∈ student_ids df <-> sid ∈ student_id <$> rows df.
Proof. apply elem_of_group_keys. Qed.

Lemma index_student_frame sqrt df :
  (student_row sqrt df <$> student_ids df).*1 = student_ids df.
Proof.
  rewrite <- list_fmap_compose.
  rewrite <- (list_fmap_id (student_ids df)) at 2.
  by apply list_fmap_ext.
Qed.

(** ** The standard deviation fields *)

Lemma length_dropna xs : (length (dropna xs) <= length xs)%nat.
Proof.
  unfold dropna. induction xs as [|[x|] xs IH]; cbn [omap list_omap length]; 
    simpl; lia.
Qed.

Lemma nanstd_sample sqrt xs :
  default 0 (nanstd sqrt xs) = sample_std_or_zero sqrt (dropna xs).
Proof.
  unfold nanstd, sample_std_or_zero. rewrite group_var_sample.
  by case_decide.
Qed.

Lemma sample_std_single sqrt ys :
  (length ys <= 1)%nat -> sample_std_or_zero sqrt ys = 0.
Proof. intros H. unfold sample_std_or_zero. by rewrite decide_True. Qed.

(** C2.  On a well-formed batch the aggregation succeeds, and for every student
    of the batch the fields score_std and time_spent_std of that student's row
    are the sample standard deviation of the student's valid values: the square
    root of the squared deviations from their mean divided by n - 1, and 0 when
    there are fewer than two values.  In particular both are 0 for a student
    with exactly one event. *)
Theorem std_fields_are_sample_std (sqrt : Qc -> Qc) (df : DataFrame) :
  well_formed df = true ->
  exists fr,
    preprocess_student_data sqrt df = Ok fr /\
    forall sid, sid ∈ student_id <$> rows df ->
      loc fr sid "score_std"
        = Some (sample_std_or_zero sqrt (valid "score" (events_of sid df))) /\
      loc fr sid "time_spent_std"
        = Some (sample_std_or_zero sqrt (valid "time_spent" (events_of sid df))) /\
      (length (events_of sid df) = 1%nat ->
        loc fr sid "score_std" = Some 0 /\ loc fr sid "time_spent_std" = Some 0).
Proof.
  intros Hwf. eexists. split; [by apply preprocess_ok|].
  intros sid Hsid%elem_of_student_ids.
  unfold loc. rewrite row_of_student by done. cbn [mbind option_bind fcolumns].
  change (position "score_std" feature_names) with (Some 3%nat).
  change (position "time_spent_std" feature_names) with (Some 6%nat).
  cbn [mbind option_bind].
  assert (Hs : (default 0 <$> agg_row sqrt inference_spec (events_of sid df)) !! 3%nat
    = Some (sample_std_or_zero sqrt (valid "score" (events_of sid df)))).
  { cbn. f_equal. apply nanstd_sample. }
  assert (Ht : (default 0 <$> agg_row sqrt inference_spec (events_of sid df)) !! 6%nat
    = Some (sample_std_or_zero sqrt (valid "time_spent" (events_of sid df)))).
  { cbn. f_equal. apply nanstd_sample. }
  rewrite Hs, Ht. split; [done|]. split; [done|]. intros Hone.
  rewrite !sample_std_single; [done| |].
  - unfold valid. etrans; [apply length_dropna|].
    unfold series. rewrite length_fmap. lia.
  - unfold valid. etrans; [apply length_dropna|].
    unfold series. rewrite length_fmap. lia.
Qed.

(** ** Minimum, maximum and mean of the valid values *)

Lemma Qcmin_spec x y : (Qcmin x y = x \/ Qcmin x y = y) /\ Qcmin x y <= x /\ Qcmin x y <= y.
Proof.
  unfold Qcmin. case_decide as H.
  - split; [by left|]. split; [apply Qcle_refl|done].
  - split; [by right|]. split; [|apply Qcle_refl].
    apply Qclt_le_weak. by apply Qclt_nge.
Qed.

Lemma Qcmax_spec x y : (Qcmax x y = x \/ Qcmax x y = y) /\ x <= Qcmax x y /\ y <= Qcmax x y.
Proof.
  unfold Qcmax. case_decide as H.
  - split; [by right|]. split; [done|apply Qcle_refl].
  - split; [by left|]. split; [apply Qcle_refl|].
    apply Qclt_le_weak. by apply Qclt_nge.
Qed.

Lemma foldl_Qcmin_least ys y : is_least (foldl Qcmin y ys) (y :: ys).
Proof.
  revert y. induction ys as [|z ys IH]; intros y; cbn [foldl].
  - split; [left|]. intros y' ->%list_elem_of_singleton. apply Qcle_refl.
  - destruct (IH (Qcmin y z)) as [Hin Hle].
    destruct (Qcmin_spec y z) as (Hor & Hy & Hz). split.
    + apply elem_of_cons in Hin as [Hin|Hin].
      * rewrite Hin. destruct Hor as [->| ->]; [left|right; left].
      * right. by right.
    + assert (Hm : foldl Qcmin (Qcmin y z) ys <= Qcmin y z) by (apply Hle; left).
      intros y' Hy'. apply elem_of_cons in Hy' as [->|Hy'].
      * by apply Qcle_trans with (Qcmin y z).
      * apply elem_of_cons in Hy' as [->|Hy'].
        -- by apply Qcle_trans with (Qcmin y z).
        -- apply Hle. by right.
Qed.

Lemma foldl_Qcmax_greatest ys y : is_greatest (foldl Qcmax y ys) (y :: ys).
Proof.
  revert y. induction ys as [|z ys IH]; intros y; cbn [foldl].
  - split; [left|]. intros y' ->%list_elem_of_singleton. apply Qcle_refl.
  - destruct (IH (Qcmax y z)) as [Hin Hle].
    destruct (Qcmax_spec y z) as (Hor & Hy & Hz). split.
    + apply elem_of_cons in Hin as [Hin|Hin].
      * rewrite Hin. destruct Hor as [->| ->]; [left|right; left].
      * right. by right.
    + assert (Hm : Qcmax y z <= foldl Qcmax (Qcmax y z) ys) by (apply Hle; left).
      intros y' Hy'. apply elem_of_cons in Hy' as [->|Hy'].
      * by apply Qcle_trans with (Qcmax y z).
      * apply elem_of_cons in Hy' as [->|Hy'].
        -- by apply Qcle_trans with (Qcmax y z).
        -- apply Hle. by right.
Qed.

Lemma nanmean_valid xs : default 0 (nanmean xs) = mean_or_zero (dropna xs).
Proof. unfold nanmean, mean_or_zero. by destruct (dropna xs). Qed.

Lemma nanmin_valid xs :
  if decide (dropna xs = []) then nanmin xs = None
  else exists m, nanmin xs = Some m /\ is_least m (dropna xs).
Proof.
  unfold nanmin. destruct (dropna xs) as [|y ys]; [done|].
  rewrite decide_False by done. eexists. split; [done|]. apply foldl_Qcmin_least.
Qed.

Lemma nanmax_valid xs :
  if decide (dropna xs = []) then nanmax xs = None
  else exists m, nanmax xs = Some m /\ is_greatest m (dropna xs).
Proof.
  unfold nanmax. destruct (dropna xs) as [|y ys]; [done|].
  rewrite decide_False by done. eexists. split; [done|].
  apply foldl_Qcmax_greatest.
Qed.

Lemma dropna_score g : dropna (series "score" g) = valid_scores g.
Proof.
  unfold dropna, series. induction g as [|e g IH]; [done|].
  rewrite fmap_cons, get_score. cbn [valid_scores].
  destruct (score e); cbn [to_float omap list_omap id]; simpl; by rewrite <- IH.
Qed.

Lemma dropna_time_spent g : dropna (series "time_spent" g) = valid_times g.
Proof.
  unfold dropna, series. induction g as [|e g IH]; [done|].
  rewrite fmap_cons, get_time_spent. cbn [valid_times].
  destruct (time_spent e); cbn [to_float omap list_omap id]; simpl;
    by rewrite <- IH.
Qed.

(** C9.  Missing score or time_spent values do not make the aggregation fail
    and are skipped: on a batch whose score and time_spent cells are numbers or
    missing, every aggregate of a student is computed from the student's valid
    values alone, and an aggregate that is undefined on them (mean, min, max of
    no value; std of fewer than two) is 0 in the student's row.  A student
    whose scores are all missing has score_mean, score_min, score_max and
    score_std equal to 0.  (The sum is the sum of the valid times unless an
    all-integer column wraps around in int64.) *)
Theorem missing_values_skipped_and_filled (sqrt : Qc -> Qc) (df : DataFrame) :
  well_formed df = true ->
  exists fr,
    preprocess_student_data sqrt df = Ok fr /\
    forall sid, sid ∈ student_id <$> rows df ->
      let s := valid_scores (events_of sid df) in
      let t := valid_times (events_of sid df) in
      loc fr sid "score_mean" = Some (mean_or_zero s) /\
      (exists m, loc fr sid "score_min" = Some m /\
                 if decide (s = []) then m = 0 else is_least m s) /\
      (exists m, loc fr sid "score_max" = Some m /\
                 if decide (s = []) then m = 0 else is_greatest m s) /\
      loc fr sid "score_std" = Some (sample_std_or_zero sqrt s) /\
      (sum_not_wrapped df (qsum t) ->
         loc fr sid "time_spent_sum" = Some (qsum t)) /\
      loc fr sid "time_spent_mean" = Some (mean_or_zero t) /\
      loc fr sid "time_spent_std" = Some (sample_std_or_zero sqrt t) /\
      (s = [] ->
        loc fr sid "score_mean" = Some 0 /\ loc fr sid "score_min" = Some 0 /\
        loc fr sid "score_max" = Some 0 /\ loc fr sid "score_std" = Some 0).
Proof.
  intros Hwf. eexists. split; [by apply preprocess_ok|].
  intros sid Hsid%elem_of_student_ids s t.
  unfold loc. rewrite row_of_student by done. cbn [mbind option_bind fcolumns].
  change (position "score_mean" feature_names) with (Some 0%nat).
  change (position "score_min" feature_names) with (Some 1%nat).
  change (position "score_max" feature_names) with (Some 2%nat).
  change (position "score_std" feature_names) with (Some 3%nat).
  change (position "time_spent_sum" feature_names) with (Some 4%nat).
  change (position "time_spent_mean" feature_names) with (Some 5%nat).
  change (position "time_spent_std" feature_names) with (Some 6%nat).
  cbn [mbind option_bind].
  change (default 0 <$> agg_row sqrt inference_spec (events_of sid df)) with
    [default 0 (nanmean (series "score" (events_of sid df)));
     default 0 (nanmin (series "score" (events_of sid df)));
     default 0 (nanmax (series "score" (events_of sid df)));
     default 0 (nanstd sqrt (series "score" (events_of sid df)));
     qsum (dropna (series "time_spent" (events_of sid df)));
     default 0 (nanmean (series "time_spent" (events_of sid df)));
     default 0 (nanstd sqrt (series "time_spent" (events_of sid df)));
     default 0 (nanmax (series "chapter_id" (events_of sid df)))].
  cbn [lookup list_lookup].
  rewrite !nanmean_valid, !nanstd_sample.
  pose proof (nanmin_valid (series "score" (events_of sid df))) as Hmin.
  pose proof (nanmax_valid (series "score" (events_of sid df))) as Hmax.
  rewrite !dropna_score in *. rewrite !dropna_time_spent.
  fold s t in Hmin, Hmax |- *.
  assert (Gmin : exists m, Some (default 0 (nanmin (series "score" (events_of sid df)))) = Some m
            /\ if decide (s = []) then m = 0 else is_least m s).
  { destruct (decide (s = [])).
    - rewrite Hmin. by eexists.
    - destruct Hmin as (m & -> & Hm). by exists m. }
  assert (Gmax : exists m, Some (default 0 (nanmax (series "score" (events_of sid df)))) = Some m
            /\ if decide (s = []) then m = 0 else is_greatest m s).
  { destruct (decide (s = [])).
    - rewrite Hmax. by eexists.
    - destruct Hmax as (m & -> & Hm). by exists m. }
  repeat (split; [done|]).
  intros Hs.
  assert (Hstd : sample_std_or_zero sqrt s = 0).
  { apply sample_std_single. rewrite Hs. cbn [length]. lia. }
  rewrite decide_True in Hmin, Hmax by done.
  by rewrite Hmin, Hmax, Hstd, Hs.
Qed.

(** ** The /predict endpoint on a well-formed batch *)

Lemma transform_ok s (X : matrix) :
  X <> [] -> Forall (fun r => length r = length (mean_ s)) X ->
  transform s X = Ok (transform_row s <$> X).
Proof.
  intros Hne Hall. unfold transform. destruct X as [|r X]; [done|].
  assert (H : forallb (fun r => bool_decide (length r = length (mean_ s))) (r :: X)
              = true).
  { apply forallb_forall. intros r' Hr'%list_elem_of_In.
    apply bool_decide_eq_true. by eapply Forall_forall in Hall. }
  by rewrite H.
Qed.

Lemma second_column_ok (P : list (list Qc)) :
  Forall (fun r => (1 < length r)%nat) P ->
  exists ps, second_column P = Ok ps /\ length ps = length P /\
    forall i r, P !! i = Some r -> ps !! i = r !! 1%nat.
Proof.
  induction 1 as [|r P Hr _ (ps & Hps & Hlen & Hnth)].
  - exists []. by split.
  - cbn [second_column]. unfold at_index.
    destruct (r !! 1%nat) as [p|] eqn:Hp.
    + cbn [mbind except_bind]. rewrite Hps. cbn [mbind except_bind].
      exists (p :: ps). split; [done|]. split; [by rewrite !length_cons, Hlen|].
      intros [|i] r' Hi; cbn in Hi |- *; [by simplify_eq|]. by apply Hnth.
    + apply lookup_ge_None in Hp. lia.
Qed.

Lemma results_loop_ok predictions probabilities ids idx :
  (idx + length ids <= length predictions)%nat ->
  (idx + length ids <= length probabilities)%nat ->
  exists results,
    results_loop predictions probabilities idx ids = Ok results /\
    r_student_id <$> results = ids /\
    forall i r, results !! i = Some r ->
      exists sid prob pred,
        ids !! i = Some sid /\
        probabilities !! (idx + i)%nat = Some prob /\
        predictions !! (idx + i)%nat = Some pred /\
        r = {| r_student_id := sid;
               completion_probability := round2 prob;
               predicted_completion := bool_decide (pred <> 0%Z);
               risk_level := risk prob |}.
Proof.
  revert idx. induction ids as [|sid ids IH]; intros idx H1 H2.
  - exists []. split; [done|]. split; [done|]. intros i r Hi. by destruct i.
  - cbn [length] in H1, H2. cbn [results_loop]. unfold result_row, at_index.
    destruct (lookup_lt_is_Some_2 probabilities idx) as [prob Hprob]; [lia|].
    destruct (lookup_lt_is_Some_2 predictions idx) as [pred Hpred]; [lia|].
    rewrite Hprob, Hpred. cbn [mbind except_bind].
    destruct (IH (S idx)) as (rs & Hrs & Hids & Hnth); [lia|lia|].
    rewrite Hrs. cbn [mbind except_bind]. eexists. split; [done|].
    split; [by rewrite fmap_cons, Hids|].
    intros [|i] r Hi; cbn in Hi.
    + simplify_eq. exists sid, prob, pred. by rewrite Nat.add_0_r.
    + destruct (Hnth i r Hi) as (sid' & prob' & pred' & ? & ? & ? & ?).
      exists sid', prob', pred'.
      by replace (idx + S i)%nat with (S idx + i)%nat by lia.
Qed.

Lemma student_ids_nonempty df : rows df <> [] -> student_ids df <> [].
Proof.
  intros Hne Hnil. destruct (rows df) as [|e es] eqn:E; [done|].
  assert (H : student_id e ∈ student_ids df).
  { apply elem_of_student_ids. rewrite E. left. }
  rewrite Hnil in H. by apply elem_of_nil in H.
Qed.

Lemma StronglySorted_le_lt (l : list Z) :
  StronglySorted Z.le l -> NoDup l -> StronglySorted Z.lt l.
Proof.
  induction 1 as [|x l Hs IH Hx]; intros Hnd; [constructor|].
  apply NoDup_cons in Hnd as [Hnin Hnd]. constructor; [by apply IH|].
  apply Forall_forall. intros y Hy.
  eapply Forall_forall in Hx; [|done].
  assert (x <> y) by (intros ->; done). lia.
Qed.

Lemma student_ids_sorted df : StronglySorted Z.lt (student_ids df).
Proof.
  apply StronglySorted_le_lt.
  - apply group_keys_sorted; apply _.
  - apply NoDup_group_keys.
Qed.

Lemma student_ids_Permutation df df' :
  rows df ≡ₚ rows df' -> student_ids df = student_ids df'.
Proof.
  intros Hp. apply group_keys_Permutation; try apply _. by rewrite Hp.
Qed.

(** What the endpoint computes on a well-formed, non-empty batch when the
    artifacts are loaded, the scaler was fitted on the eight features and the
    classifier answers once per row. *)
Lemma predict_body_ok sqrt a df :
  well_formed df = true -> rows df <> [] ->
  fitted_on_features (scaler a) -> one_answer_per_row (model a) ->
  exists fr X_scaled probabilities results,
    preprocess_student_data sqrt df = Ok fr /\
    index fr = student_ids df /\
    transform (scaler a) (values fr) = Ok X_scaled /\
    length X_scaled = length (student_ids df) /\
    second_column (predict_proba (model a) X_scaled) = Ok probabilities /\
    predict_body sqrt a df = Ok results /\
    r_student_id <$> results = student_ids df /\
    forall i r, results !! i = Some r ->
      exists sid prob pred,
        student_ids df !! i = Some sid /\
        probabilities !! i = Some prob /\
        predict (model a) X_scaled !! i = Some pred /\
        r = {| r_student_id := sid;
               completion_probability := round2 prob;
               predicted_completion := bool_decide (pred <> 0%Z);
               risk_level := risk prob |}.
Proof.
  intros Hwf Hne [Hmean Hscale] Hm. unfold predict_body.
  rewrite (preprocess_ok sqrt df Hwf). cbn [mbind except_bind].
  set (fr := {| fcolumns := feature_names;
                frows := student_row sqrt df <$> student_ids df |}).
  assert (Hidx : index fr = student_ids df) by apply index_student_frame.
  assert (Hlen : length (values fr) = length (student_ids df)).
  { unfold values, fr. cbn [frows]. by rewrite !length_fmap. }
  assert (HX : transform (scaler a) (values fr)
               = Ok (transform_row (scaler a) <$> values fr)).
  { apply transform_ok.
    - intros Hnil. apply (student_ids_nonempty df Hne).
      apply nil_length_inv. by rewrite <- Hlen, Hnil.
    - unfold values, fr. cbn [frows]. rewrite <- list_fmap_compose.
      apply Forall_fmap, Forall_forall. intros sid _.
      cbn [compose student_row snd]. by rewrite length_fmap, Hmean. }
  rewrite HX. cbn [mbind except_bind].
  set (X_scaled := transform_row (scaler a) <$> values fr).
  assert (HlenX : length X_scaled = length (student_ids df)).
  { unfold X_scaled. by rewrite length_fmap. }
  destruct (Hm X_scaled) as (Hp1 & Hp2 & Hp3).
  destruct (second_column_ok (predict_proba (model a) X_scaled))
    as (ps & Hps & Hpslen & _).
  { eapply Forall_impl; [exact Hp3|]. intros r Hr. cbn beta in Hr. lia. }
  rewrite Hps. cbn [mbind except_bind].
  destruct (results_loop_ok (predict (model a) X_scaled) ps (index fr) 0)
    as (rs & Hrs & Hids & Hnth).
  { rewrite Hidx, Hp1, HlenX. lia. }
  { rewrite Hidx, Hpslen, Hp2, HlenX. lia. }
  exists fr, X_scaled, ps, rs.
  repeat (split; [done|]). split; [by rewrite Hids|].
  intros i r Hi. destruct (Hnth i r Hi) as (sid & prob & pred & H1 & H2 & H3 & H4).
  exists sid, prob, pred. by rewrite <- Hidx.
Qed.

(** C7, as the code has it.  On a well-formed batch the aggregated frame has
    exactly one row per distinct student_id of the batch (no identifier twice,
    and an identifier is in the index exactly when it occurs in the batch), and
    the row of a student is the aggregate of all the events of that student.
    When the batch has at least one row, the artifacts are loaded, the scaler
    was fitted on the eight features and the classifier answers once per row,
    /predict returns one PredictionResult per row of that frame, in the same
    order.  When the batch has no row, /predict returns no list of results: the
    scaler refuses the empty matrix and the answer is status 400. *)
Theorem one_vector_and_one_result_per_student (sqrt : Qc -> Qc)
    (a : Artifacts) (df : DataFrame) :
  well_formed df = true ->
  exists fr,
    preprocess_student_data sqrt df = Ok fr /\
    NoDup (index fr) /\
    (forall sid, sid ∈ index fr <-> sid ∈ student_id <$> rows df) /\
    (forall sid, sid ∈ index fr ->
       row_of fr sid
       = Some (default 0 <$> agg_row sqrt inference_spec (events_of sid df))) /\
    (rows df <> [] -> fitted_on_features (scaler a) ->
     one_answer_per_row (model a) ->
     exists results,
       predict_completion sqrt (Some a) df = JSONResponse results /\
       r_student_id <$> results = index fr) /\
    (rows df = [] ->
     index fr = [] /\
     exists e,
       predict_completion sqrt (Some a) df
       = HTTPException 400 (ErrorProcessingFile e)).
Proof.
  intros Hwf. eexists. split; [by apply preprocess_ok|].
  unfold index. cbn [frows]. rewrite index_student_frame.
  split; [apply NoDup_group_keys|].
  split; [apply elem_of_student_ids|].
  split; [intros sid Hsid; by apply row_of_student|].
  split.
  - intros Hne Hs Hm.
    destruct (predict_body_ok sqrt a df Hwf Hne Hs Hm)
      as (fr & X & ps & rs & _ & _ & _ & _ & _ & Hbody & Hids & _).
    exists rs. unfold predict_completion. by rewrite Hbody.
  - intros Hrows. unfold predict_completion, predict_body.
    rewrite (preprocess_ok sqrt df Hwf). cbn [mbind except_bind].
    unfold values, student_ids. cbn [frows]. rewrite Hrows.
    split; [done|]. by exists ValueError.
Qed.

(** An upload that has the header of the scenario and no row is well formed,
    and /predict answers it with status 400, not with a list of results. *)
Lemma header_only_upload_gets_no_results :
  well_formed header_only = true /\
  rows header_only = [] /\
  (exists e,
     predict_completion sqrtq (Some example_artifacts) header_only
     = HTTPException 400 (ErrorProcessingFile e)) /\
  forall results,
    predict_completion sqrtq (Some example_artifacts) header_only
    <> JSONResponse results.
Proof.
  split; [reflexivity|]. split; [reflexivity|]. split.
  - eexists. vm_compute. reflexivity.
  - intros results. vm_compute. discriminate.
Qed.

(** C10.  Under the same conditions the results of /predict are in strictly
    ascending order of student_id, whatever the order of the rows of the
    upload: their identifiers are the sorted distinct identifiers of the
    batch, which a permutation of the rows does not change.  The i-th result
    carries the i-th identifier of the aggregated frame, the i-th label and
    the i-th probability of the classifier on the scaled frame (rounded to two
    decimals), and the risk tier of that probability. *)
Theorem results_sorted_and_paired (sqrt : Qc -> Qc) (a : Artifacts)
    (df : DataFrame) :
  well_formed df = true -> rows df <> [] ->
  fitted_on_features (scaler a) -> one_answer_per_row (model a) ->
  exists fr X_scaled probabilities results,
    preprocess_student_data sqrt df = Ok fr /\
    transform (scaler a) (values fr) = Ok X_scaled /\
    second_column (predict_proba (model a) X_scaled) = Ok probabilities /\
    predict_completion sqrt (Some a) df = JSONResponse results /\
    StronglySorted Z.lt (r_student_id <$> results) /\
    r_student_id <$> results = student_ids df /\
    (forall df', rows df' ≡ₚ rows df -> student_ids df' = student_ids df) /\
    length results = length (frows fr) /\
    forall i r, results !! i = Some r ->
      exists sid prob pred,
        index fr !! i = Some sid /\
        probabilities !! i = Some prob /\
        predict (model a) X_scaled !! i = Some pred /\
        r = {| r_student_id := sid;
               completion_probability := round2 prob;
               predicted_completion := bool_decide (pred <> 0%Z);
               risk_level := risk prob |}.
Proof.
  intros Hwf Hne Hs Hm.
  destruct (predict_body_ok sqrt a df Hwf Hne Hs Hm)
    as (fr & X & ps & rs & Hfr & Hidx & HX & _ & Hps & Hbody & Hids & Hnth).
  exists fr, X, ps, rs. repeat (split; [done|]).
  split; [unfold predict_completion; by rewrite Hbody|].
  split; [rewrite Hids; apply student_ids_sorted|].
  split; [done|].
  split; [intros df' Hp; by apply student_ids_Permutation|].
  split.
  - rewrite <- (length_fmap r_student_id), Hids, <- Hidx.
    unfold index. by rewrite length_fmap.
  - intros i r Hi. rewrite Hidx. by apply Hnth.
Qed.

(** C4.  The risk tier of a probability is High exactly below 0.30, Medium
    exactly from 0.30 (included) to 0.70 (excluded), and Low exactly from 0.70
    on; 0.30 is Medium and 0.70 is Low. *)
Theorem risk_tiers (p : Qc) :
  (risk p = "High" <-> p < Q2Qc (3 # 10)) /\
  (risk p = "Medium" <-> Q2Qc (3 # 10) <= p /\ p < Q2Qc (7 # 10)) /\
  (risk p = "Low" <-> Q2Qc (7 # 10) <= p) /\
  risk (Q2Qc (3 # 10)) = "Medium" /\
  risk (Q2Qc (7 # 10)) = "Low".
Proof.
  assert (H37 : Q2Qc (3 # 10) < Q2Qc (7 # 10)) by done.
  unfold risk.
  split; [|split; [|split; [|split; [done|done]]]].
  - destruct (decide (p < Q2Qc (3 # 10))) as [H|H]; [done|].
    destruct (decide (p < Q2Qc (7 # 10))); split; done.
  - destruct (decide (p < Q2Qc (3 # 10))) as [H|H].
    + split; [done|]. intros [H1 _]. by apply Qcle_not_lt in H1.
    + apply Qcnot_lt_le in H.
      destruct (decide (p < Q2Qc (7 # 10))) as [H'|H']; [done|].
      split; [done|]. by intros [_ ?].
  - destruct (decide (p < Q2Qc (3 # 10))) as [H|H].
    + split; [done|]. intros H7. exfalso.
      apply (Qcle_not_lt _ _ H7). by apply Qclt_trans with (Q2Qc (3 # 10)).
    + destruct (decide (p < Q2Qc (7 # 10))) as [H'|H'].
      * split; [done|]. intros H7. by apply Qcle_not_lt in H7.
      * split; [|done]. intros _. by apply Qcnot_lt_le.
Qed.

(** ** The difficulty table *)

Lemma well_formed_difficulty_columns df c :
  well_formed_difficulty df = true -> c ∈ difficulty_columns -> c ∈ columns df.
Proof.
  unfold well_formed_difficulty. intros [H _]%andb_prop Hc.
  rewrite forallb_forall in H. apply list_elem_of_In in Hc.
  specialize (H c Hc). by apply bool_decide_eq_true in H.
Qed.

Lemma well_formed_difficulty_numeric df e :
  well_formed_difficulty df = true -> e ∈ rows df ->
  is_text (score e) = false /\ is_text (time_spent e) = false.
Proof.
  unfold well_formed_difficulty. intros [_ H]%andb_prop He.
  rewrite forallb_forall in H. apply list_elem_of_In in He.
  specialize (H e He). unfold numeric_row in H.
  apply andb_prop in H as [H1 H2]. by rewrite negb_true_iff in H1, H2.
Qed.

Lemma difficulty_stats_ok sqrt df :
  well_formed_difficulty df = true ->
  difficulty_stats sqrt df
  = Ok (difficulty_row (max_avg_time df) <$> (chapter_stats df <$> chapter_keys df)).
Proof.
  intros Hwf. unfold difficulty_stats, groupby_course_chapter.
  assert (Hm1 : missing ["course_id"; "chapter_id"] df = []).
  { apply missing_nil. intros c Hc. apply well_formed_difficulty_columns; [done|].
    unfold difficulty_columns. rewrite !elem_of_cons in Hc.
    destruct Hc as [->|[->|Hc]]; [| |by apply elem_of_nil in Hc];
      rewrite !elem_of_cons; auto. }
  rewrite Hm1. cbn [mbind except_bind]. unfold agg.
  assert (Hm2 : missing difficulty_spec.*1 df = []).
  { apply missing_nil. intros c Hc. apply well_formed_difficulty_columns; [done|].
    change (difficulty_spec.*1) with ["score"; "time_spent"] in Hc.
    unfold difficulty_columns. rewrite !elem_of_cons in Hc.
    destruct Hc as [->|[->|Hc]]; [| |by apply elem_of_nil in Hc];
      rewrite !elem_of_cons; auto. }
  assert (Ht : text_columns difficulty_spec df = []).
  { apply text_columns_nil. intros c e Hc He.
    destruct (well_formed_difficulty_numeric df e Hwf He) as [Hs Htm].
    change (difficulty_spec.*1) with ["score"; "time_spent"] in Hc.
    rewrite !elem_of_cons in Hc. destruct Hc as [->|[->|Hc]].
    - by rewrite get_score.
    - by rewrite get_time_spent.
    - by apply elem_of_nil in Hc. }
  rewrite Hm2, Ht. cbn [mbind except_bind]. cbn [frows].
  assert (Hrows :
    (fun kg : string * Z * list Event =>
       (kg.1, agg_row sqrt difficulty_spec kg.2))
      <$> group_rows pair_le chapter_key (rows df)
    = chapter_stats df <$> chapter_keys df).
  { unfold group_rows, chapter_keys. rewrite <- list_fmap_compose.
    by apply list_fmap_ext. }
  unfold values. cbn [frows]. rewrite Hrows. f_equal.
  apply list_fmap_ext. intros i kr _. f_equal. unfold max_avg_time. f_equal.
  rewrite <- !list_fmap_compose. by apply list_fmap_ext.
Qed.

Lemma nanmean_mean_of xs : nanmean xs = mean_of (dropna xs).
Proof. unfold nanmean, mean_of. by destruct (dropna xs). Qed.

Lemma record_keys_difficulty tmax df :
  record_key <$> (difficulty_row tmax <$> (chapter_stats df <$> chapter_keys df))
  = chapter_keys df.
Proof.
  rewrite <- !list_fmap_compose.
  rewrite <- (list_fmap_id (chapter_keys df)) at 2.
  apply list_fmap_ext. by intros i [c ch] _.
Qed.

Lemma avg_times_difficulty tmax df :
  avg_time <$> (difficulty_row tmax <$> (chapter_stats df <$> chapter_keys df))
  = (fun k => nanmean (series "time_spent" (events_of_chapter k df)))
      <$> chapter_keys df.
Proof. rewrite <- !list_fmap_compose. by apply list_fmap_ext. Qed.

(** C3.  On a batch that has the four columns the table reads, with numeric
    or missing scores and times, the difficulty table has exactly one record per
    (course_id, chapter_id) pair that occurs in the batch.  In the record of a
    pair, avg_score and avg_time are the means of the valid scores and times of
    the events of that pair, and difficulty_score is
    (100 - avg_score) + (avg_time / tmax) * 50, where tmax is the greatest
    avg_time of the records of this table.  The score is undefined when one of
    the averages is, or when tmax is 0. *)
Theorem difficulty_records (sqrt : Qc -> Qc) (df : DataFrame) :
  well_formed_difficulty df = true ->
  exists recs,
    difficulty_stats sqrt df = Ok recs /\
    NoDup (record_key <$> recs) /\
    (forall k, k ∈ record_key <$> recs <-> k ∈ chapter_key <$> rows df) /\
    exists tmax : float,
      (forall m, tmax = Some m -> is_greatest m (dropna (avg_time <$> recs))) /\
      (tmax = None -> dropna (avg_time <$> recs) = []) /\
      forall r, r ∈ recs ->
        avg_score r
          = mean_of (valid "score" (events_of_chapter (record_key r) df)) /\
        avg_time r
          = mean_of (valid "time_spent" (events_of_chapter (record_key r) df)) /\
        difficulty_score r
          = fadd (fsub (Some (Q2Qc 100)) (avg_score r))
                 (fmul (fdiv (avg_time r) tmax) (Some (Q2Qc 50))) /\
        (forall s t m,
           avg_score r = Some s -> avg_time r = Some t -> tmax = Some m ->
           m <> 0 ->
           difficulty_score r = Some ((Q2Qc 100 - s) + t / m * Q2Qc 50)).
Proof.
  intros Hwf. eexists. split; [by apply difficulty_stats_ok|].
  rewrite record_keys_difficulty, avg_times_difficulty.
  split; [apply NoDup_group_keys|].
  split; [intros k; apply elem_of_group_keys|].
  exists (max_avg_time df).
  pose proof (nanmax_valid
    ((fun k => nanmean (series "time_spent" (events_of_chapter k df)))
       <$> chapter_keys df)) as Hmax.
  fold (max_avg_time df) in Hmax.
  split; [|split].
  - intros m Hm. case_decide as Hd; [by rewrite Hm in Hmax|].
    destruct Hmax as (m' & Hm' & Hg). by simplify_eq.
  - intros Hn. case_decide as Hd; [done|].
    destruct Hmax as (m' & Hm' & _). by simplify_eq.
  - intros r Hr. apply list_elem_of_fmap in Hr as (kr & -> & Hkr).
    apply list_elem_of_fmap in Hkr as (k & -> & Hk).
    destruct k as [c ch]. unfold record_key, difficulty_row, chapter_stats.
    cbn [d_course_id d_chapter_id avg_score avg_time difficulty_score fst snd
         cell_at lookup list_lookup mjoin option_join].
    rewrite !nanmean_mean_of. split; [done|]. split; [done|]. split; [done|].
    intros s t m Hs Ht Hm Hne. unfold valid in Hs, Ht. rewrite Hs, Ht, Hm.
    cbn [fadd fsub fmul fdiv mbind option_bind]. by rewrite decide_False.
Qed.

(** ** Independence of the order of the rows *)







(** In binary64 the average score of a chapter changes with the order of its
    rows, with the compensated sum as with the plain one. *)
Section Binary64Facts.
Import PrimFloat.
#[local] Set Warnings "-inexact-float".


End Binary64Facts.

(** ** Malformed batches *)

Lemma text_columns_nil_inv spec df c e :
  text_columns spec df = [] -> c ∈ spec.*1 -> e ∈ rows df ->
  is_text (cell_of c e) = false.
Proof.
  unfold text_columns. intros Hnil Hc He.
  destruct (is_text (cell_of c e)) eqn:E; [|done]. exfalso.
  assert (Hin : c ∈ filter
    (fun c => existsb (fun e => is_text (cell_of c e)) (rows df) = true) spec.*1).
  { apply list_elem_of_filter. split; [|done].
    apply existsb_exists. exists e. split; [by apply list_elem_of_In|done]. }
  rewrite Hnil in Hin. by apply elem_of_nil in Hin.
Qed.

Lemma forallb_false_exists {A} (f : A -> bool) (l : list A) :
  forallb f l = false -> exists x, x ∈ l /\ f x = false.
Proof.
  induction l as [|x l IH]; [done|]. cbn [forallb].
  intros [H|H]%andb_false_iff.
  - exists x. split; [left|done].
  - destruct (IH H) as (y & Hy & Hf). exists y. split; [by right|done].
Qed.

Lemma not_well_formed df :
  well_formed df = false <->
  (exists c, c ∈ aggregated_columns /\ c ∉ columns df) \/
  (exists e, e ∈ rows df /\
     (is_text (score e) = true \/ is_text (time_spent e) = true)).
Proof.
  split.
  - intros H. unfold well_formed in H. apply andb_false_iff in H as [H|H].
    + left. apply forallb_false_exists in H as (c & Hc & Hb).
      exists c. split; [done|]. by apply bool_decide_eq_false in Hb.
    + right. apply forallb_false_exists in H as (e & He & Hb).
      exists e. split; [done|].
      unfold numeric_row in Hb. apply andb_false_iff in Hb.
      destruct Hb as [Hb|Hb]; apply negb_false_iff in Hb; auto.
  - intros H. destruct (well_formed df) eqn:Hwf; [exfalso|done].
    destruct H as [(c & Hc & Hn)|(e & He & Ht)].
    + by apply Hn, well_formed_columns.
    + destruct (well_formed_numeric df e Hwf He) as [H1 H2].
      destruct Ht as [Ht|Ht]; congruence.
Qed.

Lemma preprocess_raises sqrt df :
  well_formed df = false -> exists e, preprocess_student_data sqrt df = Raise e.
Proof.
  intros Hwf. unfold preprocess_student_data, groupby_student_id.
  destruct (missing ["student_id"] df) as [|c cs] eqn:Hm1; [|by eexists].
  cbn [mbind except_bind]. unfold agg.
  destruct (missing inference_spec.*1 df) as [|c cs] eqn:Hm2; [|by eexists].
  destruct (text_columns inference_spec df) as [|c cs] eqn:Ht; [|by eexists].
  exfalso. apply not_well_formed in Hwf.
  rewrite missing_nil in Hm1, Hm2.
  destruct Hwf as [(c & Hc & Hn)|(e & He & Htext)].
  - apply Hn. unfold aggregated_columns in Hc. rewrite !elem_of_cons in Hc.
    destruct Hc as [->|[->|[->|[->|Hc]]]]; [| | | |by apply elem_of_nil in Hc].
    + apply Hm1. left.
    + apply Hm2. left.
    + apply Hm2. right. left.
    + apply Hm2. right. right. left.
  - pose proof (text_columns_nil_inv _ _ "score" e Ht) as Hs.
    pose proof (text_columns_nil_inv _ _ "time_spent" e Ht) as Htm.
    rewrite get_score in Hs. rewrite get_time_spent in Htm.
    destruct Htext as [H|H].
    + rewrite Hs in H; [done|left|done].
    + rewrite Htm in H; [done|right; left|done].
Qed.

(** C5, as the code has it.  A batch is rejected as a whole when a column
    that the aggregation reads (student_id, score, time_spent, chapter_id) is
    absent, or when a score or time_spent cell is text that is not a number:
    [preprocess_student_data] raises, and /predict answers with status 400 and
    that exception, without any prediction.  An absent course_id column is not
    noticed, since the aggregation never reads it. *)
Theorem malformed_batch_rejected (sqrt : Qc -> Qc) (a : Artifacts)
    (df : DataFrame) :
  (exists c, c ∈ aggregated_columns /\ c ∉ columns df) \/
  (exists e, e ∈ rows df /\
     (is_text (score e) = true \/ is_text (time_spent e) = true)) ->
  exists e,
    preprocess_student_data sqrt df = Raise e /\
    predict_completion sqrt (Some a) df = HTTPException 400 (ErrorProcessingFile e).
Proof.
  intros H%not_well_formed. destruct (preprocess_raises sqrt df H) as [e He].
  exists e. split; [done|]. unfold predict_completion, predict_body.
  by rewrite He.
Qed.

(** The batch of the scenario without its course_id column is aggregated and
    predicted like the complete one. *)
Lemma batch_without_course_is_accepted :
  ("course_id" ∉ columns batch_without_course) /\
  (exists fr, preprocess_student_data sqrtq batch_without_course = Ok fr /\
              index fr = [1%Z; 2%Z]) /\
  (exists results,
     predict_completion sqrtq (Some example_artifacts) batch_without_course
       = JSONResponse results /\
     r_student_id <$> results = [1%Z; 2%Z]).
Proof.
  split; [|split].
  - apply (bool_decide_unpack _). vm_compute. exact I.
  - eexists. split; [vm_compute; reflexivity|]. vm_compute. reflexivity.
  - eexists. split; [vm_compute; reflexivity|]. vm_compute. reflexivity.
Qed.

(** ** The scaler *)






(** ** The theorems at the batch of the scenario *)

Lemma constant_classifier_answers : one_answer_per_row constant_classifier.
Proof.
  intros X. cbn [constant_classifier predict predict_proba].
  rewrite !length_fmap. split; [done|]. split; [done|].
  apply Forall_fmap, Forall_forall. by intros r _.
Qed.

Lemma unit_scaler_fitted : fitted_on_features unit_scaler.
Proof. by split. Qed.

Lemma std_fields_are_sample_std_witness :
  exists fr,
    preprocess_student_data sqrtq batch = Ok fr /\
    loc fr 2%Z "score_std" = Some 0 /\ loc fr 2%Z "time_spent_std" = Some 0.
Proof.
  destruct (std_fields_are_sample_std sqrtq batch) as (fr & Hfr & H);
    [vm_compute; reflexivity|].
  exists fr. split; [exact Hfr|].
  destruct (H 2%Z) as (_ & _ & Hone);
    [apply (bool_decide_unpack _); vm_compute; exact I|].
  apply Hone. vm_compute. reflexivity.
Defined.

Lemma least_of_two (m x y : Qc) : is_least m [x; y] -> x <= y -> m = x.
Proof.
  intros [Hin Hle] Hxy. rewrite !elem_of_cons in Hin.
  destruct Hin as [->|[->|Hin]]; [done| |by apply elem_of_nil in Hin].
  apply Qcle_antisym; [apply Hle; left|done].
Qed.

Lemma greatest_of_two (m x y : Qc) : is_greatest m [x; y] -> x <= y -> m = y.
Proof.
  intros [Hin Hle] Hxy. rewrite !elem_of_cons in Hin.
  destruct Hin as [->|[->|Hin]]; [|done|by apply elem_of_nil in Hin].
  apply Qcle_antisym; [done|apply Hle; right; left].
Qed.

Lemma missing_values_skipped_and_filled_witness :
  exists fr,
    preprocess_student_data sqrtq batch_with_missing = Ok fr /\
    loc fr 1%Z "score_mean" = Some (Q2Qc 85) /\
    loc fr 1%Z "score_min" = Some (Q2Qc 80) /\
    loc fr 1%Z "score_max" = Some (Q2Qc 90) /\
    loc fr 1%Z "time_spent_sum" = Some (Q2Qc 22) /\
    loc fr 1%Z "time_spent_mean" = Some (Q2Qc 11) /\
    loc fr 2%Z "score_mean" = Some 0 /\ loc fr 2%Z "score_min" = Some 0 /\
    loc fr 2%Z "score_max" = Some 0 /\ loc fr 2%Z "score_std" = Some 0.
Proof.
  destruct (missing_values_skipped_and_filled sqrtq batch_with_missing)
    as (fr & Hfr & H); [vm_compute; reflexivity|].
  exists fr. split; [exact Hfr|].
  destruct (H 1%Z) as (Hmean & (lo & Hlo & Hl) & (hi & Hhi & Hh) & _ & Hsum
                       & Htmean & _);
    [apply (bool_decide_unpack _); vm_compute; exact I|].
  destruct (H 2%Z) as (_ & _ & _ & _ & _ & _ & _ & Hnone);
    [apply (bool_decide_unpack _); vm_compute; exact I|].
  cbv zeta in *.
  change (valid_scores (events_of 1 batch_with_missing))
    with [Q2Qc 80; Q2Qc 90] in *.
  change (valid_times (events_of 1 batch_with_missing))
    with [Q2Qc 10; Q2Qc 12] in *.
  rewrite decide_False in Hl, Hh by discriminate.
  apply least_of_two in Hl; [|vm_compute; discriminate].
  apply greatest_of_two in Hh; [|vm_compute; discriminate].
  subst lo hi.
  split; [rewrite Hmean; f_equal; apply Qc_is_canon; vm_compute; reflexivity|].
  split; [exact Hlo|]. split; [exact Hhi|].
  split.
  { rewrite Hsum.
    - f_equal; apply Qc_is_canon; vm_compute; reflexivity.
    - left. exists (evc 1 "C101" 3 NaN (Num (Q2Qc 90))).
      split; [|reflexivity].
      do 3 apply list_elem_of_further. apply list_elem_of_here. }
  split; [rewrite Htmean; f_equal; apply Qc_is_canon; vm_compute; reflexivity|].
  apply Hnone. reflexivity.
Defined.

Lemma one_vector_and_one_result_per_student_witness :
  exists fr results,
    preprocess_student_data sqrtq batch = Ok fr /\
    NoDup (index fr) /\
    predict_completion sqrtq (Some example_artifacts) batch
      = JSONResponse results /\
    r_student_id <$> results = index fr.
Proof.
  destruct (one_vector_and_one_result_per_student sqrtq example_artifacts batch)
    as (fr & Hfr & Hnd & _ & _ & Hres & _); [vm_compute; reflexivity|].
  destruct Hres as (results & Hr & Hids);
    [discriminate | exact unit_scaler_fitted | exact constant_classifier_answers|].
  exists fr, results. repeat split; assumption.
Defined.

Lemma results_sorted_and_paired_witness :
  exists results,
    predict_completion sqrtq (Some example_artifacts) batch
      = JSONResponse results /\
    StronglySorted Z.lt (r_student_id <$> results) /\
    r_student_id <$> results = student_ids batch.
Proof.
  destruct (results_sorted_and_paired sqrtq example_artifacts batch)
    as (fr & X & ps & results & _ & _ & _ & Hr & Hs & Hids & _);
    [vm_compute; reflexivity | discriminate | exact unit_scaler_fitted
    | exact constant_classifier_answers |].
  exists results. repeat split; assumption.
Defined.

Lemma difficulty_records_witness :
  exists recs,
    difficulty_stats sqrtq batch = Ok recs /\
    NoDup (record_key <$> recs) /\
    (forall k, k ∈ record_key <$> recs <-> k ∈ chapter_key <$> rows batch).
Proof.
  destruct (difficulty_records sqrtq batch) as (recs & Hr & Hnd & Hk & _);
    [vm_compute; reflexivity|].
  exists recs. repeat split; try assumption; apply Hk.
Defined.


Lemma malformed_batch_rejected_witness :
  exists e,
    preprocess_student_data sqrtq batch_without_score = Raise e /\
    predict_completion sqrtq (Some example_artifacts) batch_without_score
      = HTTPException 400 (ErrorProcessingFile e).
Proof.
  apply malformed_batch_rejected. left. exists "score". split.
  - apply (bool_decide_unpack _). vm_compute. exact I.
  - apply (bool_decide_unpack _). vm_compute. exact I.
Defined.


Lemma series_chapter_id g :
  dropna (series "chapter_id" g) = (fun e => Qc_of_Z (chapter_id e)) <$> g.
Proof.
  unfold series, dropna. induction g as [|e g IH]; [done|].
  rewrite !fmap_cons, get_chapter_id. cbn [to_float omap list_omap id].
  simpl. by rewrite <- IH.
Qed.

(** X3.  The field chapter_id_max of a student's row is the greatest
    chapter_id among the events of that student. *)
Theorem chapter_id_max_is_greatest (sqrt : Qc -> Qc) (df : DataFrame) :
  well_formed df = true ->
  exists fr,
    preprocess_student_data sqrt df = Ok fr /\
    forall sid, sid ∈ student_id <$> rows df ->
      exists e,
        e ∈ events_of sid df /\
        loc fr sid "chapter_id_max" = Some (Qc_of_Z (chapter_id e)) /\
        forall e', e' ∈ events_of sid df -> (chapter_id e' <= chapter_id e)%Z.
Proof.
  intros Hwf. eexists. split; [by apply preprocess_ok|].
  intros sid Hsid. pose proof Hsid as Hin.
  apply elem_of_student_ids in Hsid.
  unfold loc. rewrite row_of_student by done. cbn [mbind option_bind fcolumns].
  change (position "chapter_id_max" feature_names) with (Some 7%nat).
  cbn [mbind option_bind].
  change ((default 0 <$> agg_row sqrt inference_spec (events_of sid df)) !! 7%nat)
    with (Some (default 0 (nanmax (series "chapter_id" (events_of sid df))))).
  pose proof (nanmax_valid (series "chapter_id" (events_of sid df))) as Hmax.
  rewrite series_chapter_id in Hmax.
  apply list_elem_of_fmap in Hin as (e0 & -> & He0).
  assert (Hne : e0 ∈ events_of (student_id e0) df).
  { unfold events_of. by apply list_elem_of_filter. }
  case_decide as Hd.
  { apply fmap_nil_inv in Hd. rewrite Hd in Hne. by apply elem_of_nil in Hne. }
  destruct Hmax as (m & Hm & Hin & Hle).
  apply list_elem_of_fmap in Hin as (e & -> & He).
  exists e. split; [done|]. split; [by rewrite Hm|].
  intros e' He'. apply Z2Qc_inj_le. apply Hle.
  apply list_elem_of_fmap. by exists e'.
Qed.

(** X4.  [preprocess_student_data] accepts exactly the well-formed batches:
    it returns a frame when the four columns it reads are present and score and
    time_spent hold numbers or missing values, and raises otherwise.  Neither
    the course_id column nor any other column matters. *)
Theorem preprocess_accepts_well_formed (sqrt : Qc -> Qc) (df : DataFrame) :
  (well_formed df = true <-> exists fr, preprocess_student_data sqrt df = Ok fr) /\
  (well_formed df = false <-> exists e, preprocess_student_data sqrt df = Raise e).
Proof.
  split; split.
  - intros Hwf. eexists. by apply preprocess_ok.
  - intros [fr Hfr]. destruct (well_formed df) eqn:Hwf; [done|].
    destruct (preprocess_raises sqrt df Hwf) as [e He]. congruence.
  - apply preprocess_raises.
  - intros [e He]. destruct (well_formed df) eqn:Hwf; [|done].
    rewrite (preprocess_ok sqrt df Hwf) in He. discriminate.
Qed.

(** X5.  Whenever [preprocess_student_data] returns a frame, the frame has
    the eight feature labels in their fixed order, every row has exactly eight
    values, and the index is the list of the distinct student_ids of the batch
    in ascending order. *)
Theorem preprocess_shape (sqrt : Qc -> Qc) (df : DataFrame)
    (fr : Frame string Z Qc) :
  preprocess_student_data sqrt df = Ok fr ->
  fcolumns fr = feature_names /\
  Forall (fun r => length r = 8%nat) (values fr) /\
  index fr = student_ids df /\
  StronglySorted Z.lt (index fr).
Proof.
  intros Hfr. destruct (well_formed df) eqn:Hwf.
  - rewrite (preprocess_ok sqrt df Hwf) in Hfr. injection Hfr as <-.
    cbn [fcolumns]. split; [done|]. unfold values, index. cbn [frows].
    rewrite index_student_frame. split; [|split; [done|apply student_ids_sorted]].
    rewrite <- list_fmap_compose. apply Forall_fmap, Forall_forall.
    intros sid _. cbn [compose student_row snd]. by rewrite length_fmap.
  - destruct (preprocess_raises sqrt df Hwf) as [e He]. congruence.
Qed.

Lemma chapter_id_max_is_greatest_witness :
  exists fr,
    preprocess_student_data sqrtq batch = Ok fr /\
    exists e, e ∈ events_of 1 batch /\
      loc fr 1%Z "chapter_id_max" = Some (Qc_of_Z (chapter_id e)).
Proof.
  destruct (chapter_id_max_is_greatest sqrtq batch) as (fr & Hfr & H);
    [vm_compute; reflexivity|].
  exists fr. split; [exact Hfr|].
  destruct (H 1%Z) as (e & He & Hloc & _);
    [apply (bool_decide_unpack _); vm_compute; exact I|].
  by exists e.
Defined.

Lemma preprocess_shape_witness :
  exists fr,
    preprocess_student_data sqrtq batch = Ok fr /\
    fcolumns fr = feature_names /\ index fr = student_ids batch.
Proof.
  assert (Hfr := preprocess_ok sqrtq batch).
  eexists. split; [apply Hfr; vm_compute; reflexivity|].
  destruct (preprocess_shape sqrtq batch _ (Hfr eq_refl)) as (H1 & _ & H3 & _).
  split; assumption.
Defined.

(** ** Risk tiers and rounding *)

Ltac qc_to_q :=
  unfold Qcle, Qclt, Qcdiv, Qcminus, Qcinv, Qcopp, Qcplus, Qcmult, Q2Qc in *;
  cbn [this] in *; rewrite ?Qred_correct in *.

(** X6.  The risk tier is one of Low, Medium and High, and it never gets more
    severe when the probability grows. *)
Theorem risk_monotone (p q : Qc) :
  risk p ∈ ["Low"; "Medium"; "High"] /\
  (p <= q -> (severity (risk q) <= severity (risk p))%nat).
Proof.
  unfold risk. split.
  - repeat case_decide; rewrite !elem_of_cons; auto.
  - intros Hpq.
    destruct (decide (p < Q2Qc (3 # 10))) as [Hp3|Hp3];
      destruct (decide (q < Q2Qc (3 # 10))) as [Hq3|Hq3];
      destruct (decide (p < Q2Qc (7 # 10))) as [Hp7|Hp7];
      destruct (decide (q < Q2Qc (7 # 10))) as [Hq7|Hq7];
      try (cbv; lia);
      exfalso;
      repeat match goal with H : ~ (_ < _) |- _ => apply Qcnot_lt_le in H end;
      qc_to_q; lra.
Qed.

Lemma risk_monotone_witness :
  (severity (risk (Q2Qc (9 # 10))) <= severity (risk (Q2Qc (1 # 10))))%nat.
Proof.
  apply (proj2 (risk_monotone (Q2Qc (1 # 10)) (Q2Qc (9 # 10)))).
  vm_compute. discriminate.
Defined.

Lemma this_Qc_of_Z n : this (Qc_of_Z n) = inject_Z n.
Proof. reflexivity. Qed.

Lemma round_half_even_near (y : Qc) :
  Qc_of_Z (round_half_even y) - y <= Q2Qc (1 # 2) /\
  y - Qc_of_Z (round_half_even y) <= Q2Qc (1 # 2).
Proof.
  unfold round_half_even. cbv zeta.
  assert (Hlo : Qc_of_Z (Qfloor y) <= y).
  { unfold Qcle. rewrite this_Qc_of_Z. apply Qfloor_le. }
  assert (Hhi : y < Qc_of_Z (Qfloor y + 1)).
  { unfold Qclt. rewrite this_Qc_of_Z. apply Qlt_floor. }
  assert (Hs : Qc_of_Z (Qfloor y + 1) = Qc_of_Z (Qfloor y) + 1).
  { by rewrite Z2Qc_inj_add, Z2Qc_inj_1. }
  rewrite Hs in Hhi.
  destruct (decide (y - Qc_of_Z (Qfloor y) < Q2Qc (1 # 2))) as [H1|H1].
  { generalize dependent (Qc_of_Z (Qfloor y)). intros n Hlo Hhi _ H1.
    qc_to_q. split; lra. }
  destruct (decide (Q2Qc (1 # 2) < y - Qc_of_Z (Qfloor y))) as [H2|H2].
  { rewrite Hs. generalize dependent (Qc_of_Z (Qfloor y)). intros n Hlo Hhi _ H1 H2.
    qc_to_q. split; lra. }
  apply Qcnot_lt_le in H1, H2.
  destruct (Z.even (Qfloor y)); rewrite ?Hs;
    generalize dependent (Qc_of_Z (Qfloor y)); intros n Hlo Hhi _ H1 H2;
    qc_to_q; split; lra.
Qed.

(** X7.  Rounding to two decimals moves a number by at most 0.005, and a
    probability in [0, 1] stays in [0, 1]: the completion_probability of a
    result is within 0.005 of the probability the classifier gave. *)
Theorem round2_close (x : Qc) :
  round2 x - x <= Q2Qc (1 # 200) /\
  x - round2 x <= Q2Qc (1 # 200) /\
  (0 <= x -> x <= 1 -> 0 <= round2 x /\ round2 x <= 1).
Proof.
  unfold round2.
  destruct (round_half_even_near (x * Q2Qc 100)) as [H1 H2].
  set (k := round_half_even (x * Q2Qc 100)) in *.
  split; [|split].
  - clearbody k. qc_to_q. change (/ 100)%Q with (1 # 100)%Q. lra.
  - clearbody k. qc_to_q. change (/ 100)%Q with (1 # 100)%Q. lra.
  - intros H0 Hx1.
    assert (Hk : (0 <= k <= 100)%Z).
    { split.
      - apply Z.lt_succ_r. apply Z2Qc_inj_lt.
        rewrite <- Z.add_1_r, Z2Qc_inj_add, Z2Qc_inj_1, Z2Qc_inj_0.
        generalize dependent (Qc_of_Z k). intros c H1 H2.
        qc_to_q. lra.
      - apply Z.lt_succ_r. apply Z2Qc_inj_lt.
        rewrite <- Z.add_1_r, Z2Qc_inj_add, Z2Qc_inj_1.
        generalize dependent (Qc_of_Z k). intros c H1 H2.
        qc_to_q. change (this (Qc_of_Z 100)) with 100%Q. lra. }
    destruct Hk as [Hk0 Hk1].
    apply Z2Qc_inj_le in Hk0, Hk1. rewrite Z2Qc_inj_0 in Hk0.
    generalize dependent (Qc_of_Z k). intros c H1 H2 Hk0 Hk1.
    split; qc_to_q; change (this (Qc_of_Z 100)) with 100%Q in *;
      change (/ 100)%Q with (1 # 100)%Q; lra.
Qed.

Lemma round2_close_witness :
  0 <= round2 (Q2Qc (1 # 8)) /\ round2 (Q2Qc (1 # 8)) <= 1.
Proof.
  apply (proj2 (proj2 (round2_close (Q2Qc (1 # 8))))); vm_compute; discriminate.
Defined.

(** ** An upload without rows *)

(** X10.  An upload that has a header but no data row is answered with status
    400, never with an empty list of predictions: either a column is missing,
    or the scaler refuses the empty matrix. *)
Theorem empty_batch_rejected (sqrt : Qc -> Qc) (a : Artifacts) (df : DataFrame) :
  rows df = [] ->
  exists e,
    predict_completion sqrt (Some a) df = HTTPException 400 (ErrorProcessingFile e).
Proof.
  intros Hrows. unfold predict_completion, predict_body.
  destruct (well_formed df) eqn:Hwf.
  - rewrite (preprocess_ok sqrt df Hwf). cbn [mbind except_bind].
    unfold values, student_ids. cbn [frows]. rewrite Hrows.
    exists ValueError. reflexivity.
  - destruct (preprocess_raises sqrt df Hwf) as [e He]. rewrite He.
    by exists e.
Qed.

Lemma empty_batch_rejected_witness :
  exists e,
    predict_completion sqrtq (Some example_artifacts)
      {| columns := columns batch; rows := [] |}
    = HTTPException 400 (ErrorProcessingFile e).
Proof. by apply empty_batch_rejected. Defined.

(** ** Ordering of the difficulty scores *)

Lemma difficulty_stats_inv sqrt df recs :
  difficulty_stats sqrt df = Ok recs ->
  forall r, r ∈ recs ->
    difficulty_score r
    = fadd (fsub (Some (Q2Qc 100)) (avg_score r))
           (fmul (fdiv (avg_time r) (nanmax (avg_time <$> recs)))
                 (Some (Q2Qc 50))).
Proof.
  unfold difficulty_stats.
  destruct (groupby_course_chapter df) as [grouped|e]; [|done].
  cbn [mbind except_bind].
  destruct (agg sqrt difficulty_spec df grouped) as [stats|e]; [|done].
  cbn [mbind except_bind]. intros [= <-] r Hr.
  apply list_elem_of_fmap in Hr as (kr & -> & Hkr).
  cbn [difficulty_row difficulty_score avg_score avg_time].
  do 3 f_equal. unfold values. rewrite <- !list_fmap_compose.
  by f_equal.
Qed.

Lemma fdiv_Some t m q : fdiv (Some t) (Some m) = Some q -> m <> 0 /\ q = t / m.
Proof.
  cbn [fdiv mbind option_bind]. case_decide; [done|]. by intros [= <-].
Qed.

Lemma difficulty_value r recs s t d :
  difficulty_score r
    = fadd (fsub (Some (Q2Qc 100)) (avg_score r))
           (fmul (fdiv (avg_time r) (nanmax (avg_time <$> recs)))
                 (Some (Q2Qc 50))) ->
  avg_score r = Some s -> avg_time r = Some t -> difficulty_score r = Some d ->
  exists m, nanmax (avg_time <$> recs) = Some m /\ m <> 0 /\
            d = (Q2Qc 100 - s) + t / m * Q2Qc 50.
Proof.
  intros Hf Hs Ht Hd. rewrite Hs, Ht, Hd in Hf.
  destruct (nanmax (avg_time <$> recs)) as [m|]; [|done].
  exists m. split; [done|]. destruct (fdiv (Some t) (Some m)) as [q|] eqn:Hq;
    [|done].
  apply fdiv_Some in Hq as [Hm ->]. split; [done|].
  cbn in Hf. by injection Hf.
Qed.

(** X11.  Within one difficulty table, of two chapters with the same average
    time the one with the lower (or equal) average score never has the lower
    difficulty score. *)
Theorem lower_score_is_harder (sqrt : Qc -> Qc) (df : DataFrame)
    (recs : list DifficultyRecord) (r1 r2 : DifficultyRecord)
    (s1 s2 t d1 d2 : Qc) :
  difficulty_stats sqrt df = Ok recs -> r1 ∈ recs -> r2 ∈ recs ->
  avg_score r1 = Some s1 -> avg_score r2 = Some s2 ->
  avg_time r1 = Some t -> avg_time r2 = Some t ->
  difficulty_score r1 = Some d1 -> difficulty_score r2 = Some d2 ->
  s1 <= s2 -> d2 <= d1.
Proof.
  intros Hrecs Hr1 Hr2 Hs1 Hs2 Ht1 Ht2 Hd1 Hd2 Hle.
  pose proof (difficulty_stats_inv sqrt df recs Hrecs) as Hinv.
  destruct (difficulty_value r1 recs s1 t d1 (Hinv r1 Hr1) Hs1 Ht1 Hd1)
    as (m & Hm & _ & ->).
  destruct (difficulty_value r2 recs s2 t d2 (Hinv r2 Hr2) Hs2 Ht2 Hd2)
    as (m' & Hm' & _ & ->).
  assert (m' = m) as -> by congruence.
  clear Hd1 Hd2 Hinv. generalize (t / m * Q2Qc 50). intros c.
  qc_to_q. lra.
Qed.

Lemma lower_score_is_harder_witness :
  exists recs d1 d3,
    difficulty_stats sqrtq two_students = Ok recs /\
    d_chapter_id <$> recs = [1%Z; 3%Z] /\
    difficulty_score <$> recs = [Some d1; Some d3] /\
    d1 <= d3.
Proof.
  eexists _, _, _.
  split; [vm_compute; reflexivity|].
  split; [reflexivity|]. split; [reflexivity|].
  eapply (lower_score_is_harder sqrtq two_students).
  - vm_compute. reflexivity.
  - apply list_elem_of_further, list_elem_of_here.
  - apply list_elem_of_here.
  - reflexivity.
  - reflexivity.
  - reflexivity.
  - reflexivity.
  - reflexivity.
  - reflexivity.
  - vm_compute. discriminate.
Defined.

Lemma elem_of_dropna (xs : list float) (x : Qc) : Some x ∈ xs -> x ∈ dropna xs.
Proof.
  intros H. unfold dropna. apply list_elem_of_omap. by exists (Some x).
Qed.

(** X12.  In a difficulty table built from non-negative times, the time
    component of a score never exceeds 50: difficulty_score is at most
    (100 - avg_score) + 50, with equality for a chapter whose average time is
    the largest of the table. *)
Theorem time_component_at_most_50 (sqrt : Qc -> Qc) (df : DataFrame)
    (recs : list DifficultyRecord) (r : DifficultyRecord) (s t d : Qc) :
  difficulty_stats sqrt df = Ok recs -> r ∈ recs ->
  avg_score r = Some s -> avg_time r = Some t -> difficulty_score r = Some d ->
  0 <= t ->
  d <= (Q2Qc 100 - s) + Q2Qc 50 /\
  (nanmax (avg_time <$> recs) = Some t -> d = (Q2Qc 100 - s) + Q2Qc 50).
Proof.
  intros Hrecs Hr Hs Ht Hd H0.
  pose proof (difficulty_stats_inv sqrt df recs Hrecs r Hr) as Hf.
  destruct (difficulty_value r recs s t d Hf Hs Ht Hd) as (m & Hm & Hm0 & ->).
  pose proof (nanmax_valid (avg_time <$> recs)) as Hmax.
  assert (Hin : t ∈ dropna (avg_time <$> recs)).
  { apply elem_of_dropna. rewrite <- Ht. apply list_elem_of_fmap. by exists r. }
  case_decide as Hnil; [rewrite Hnil in Hin; by apply elem_of_nil in Hin|].
  destruct Hmax as (m' & Hm' & _ & Hle). rewrite Hm in Hm'. simplify_eq.
  specialize (Hle t Hin).
  assert (Hpos : 0 < m').
  { destruct (Qcle_lt_or_eq _ _ (Qcle_trans _ _ _ H0 Hle)) as [?|E]; [done|].
    by destruct Hm0. }
  assert (Hq : t / m' <= 1).
  { apply (Qcmult_lt_0_le_reg_r _ _ m' Hpos).
    replace (t / m' * m') with t by (field; done). by rewrite Qcmult_1_l. }
  split.
  - generalize dependent (t / m'). intros q _ Hq.
    clear Hle Hpos. qc_to_q. lra.
  - intros Hmax. rewrite Hm in Hmax. injection Hmax as ->.
    replace (t / t) with (1 : Qc) by (field; done). ring.
Qed.

Lemma time_component_at_most_50_witness :
  exists recs d s,
    difficulty_stats sqrtq two_chapters = Ok recs /\
    difficulty_score <$> head recs = Some (Some d) /\
    d <= (Q2Qc 100 - s) + Q2Qc 50.
Proof.
  eexists _, _, _.
  split; [vm_compute; reflexivity|]. split; [reflexivity|].
  eapply proj1. eapply (time_component_at_most_50 sqrtq two_chapters).
  - vm_compute. reflexivity.
  - apply list_elem_of_here.
  - reflexivity.
  - reflexivity.
  - reflexivity.
  - vm_compute. discriminate.
Defined.

(** ** Loading the artifacts *)

(** X13.  The artifacts are loaded all or nothing.  When one of the three
    loads fails (the difficulty table included) the model, the scaler and the
    table are all absent and /predict answers every upload with status 500;
    when all three succeed, /predict works with the loaded model and
    scaler. *)
Theorem load_all_or_nothing (model : Except Classifier)
    (scaler : Except StandardScaler)
    (difficulty_stats : Except (list DifficultyRecord)) :
  let g := load_artifacts model scaler difficulty_stats in
  (g_model g = None <-> g_scaler g = None) /\
  (g_model g = None <-> g_difficulty_stats g = None) /\
  (g_model g = None <->
     (exists e, model = Raise e) \/ (exists e, scaler = Raise e) \/
     (exists e, difficulty_stats = Raise e)) /\
  (g_model g = None ->
     forall sqrt df,
       predict_completion sqrt (serving g) df
       = HTTPException 500 ModelNotLoaded) /\
  (forall m s d,
     model = Ok m -> scaler = Ok s -> difficulty_stats = Ok d ->
     serving g = Some {| model := m; scaler := s |} /\
     g_difficulty_stats g = Some d).
Proof.
  destruct model as [m|e1], scaler as [s|e2], difficulty_stats as [d|e3];
    cbn; repeat split; intros; simplify_eq; try done; eauto;
    try (repeat match goal with
         | H : _ \/ _ |- _ => destruct H
         | H : exists _, _ |- _ => destruct H
         end; simplify_eq).
Qed.

(** ** Training needs the target column *)

(** X14.  On a batch that inference accepts but that has no [completed]
    column, the training aggregation raises [KeyError] for that column. *)
Theorem train_features_needs_completed (sqrt : Qc -> Qc) (df : DataFrame) :
  well_formed df = true -> "completed" ∉ columns df ->
  train_features sqrt df = Raise (KeyError "completed").
Proof.
  intros Hwf Hc. unfold train_features, groupby_student_id.
  assert (Hm1 : missing ["student_id"] df = []).
  { apply missing_nil. intros c ->%list_elem_of_singleton.
    apply well_formed_columns; [done|]. left. }
  rewrite Hm1. cbn [mbind except_bind]. unfold agg.
  change (training_spec.*1) with (inference_spec.*1 ++ ["completed"]).
  rewrite missing_app.
  assert (Hm2 : missing inference_spec.*1 df = []).
  { apply missing_nil. intros c Hc'. apply well_formed_columns; [done|].
    change (inference_spec.*1) with ["score"; "time_spent"; "chapter_id"] in Hc'.
    unfold aggregated_columns. rewrite !elem_of_cons in Hc'.
    destruct Hc' as [->|[->|[->|Hc']]]; [| | |by apply elem_of_nil in Hc'];
      rewrite !elem_of_cons; auto. }
  rewrite Hm2. unfold missing. rewrite filter_cons_True by done. done.
Qed.

Lemma train_features_needs_completed_witness :
  train_features sqrtq batch = Raise (KeyError "completed").
Proof.
  apply train_features_needs_completed.
  - vm_compute. reflexivity.
  - apply (bool_decide_unpack _). vm_compute. exact I.
Defined.

(** ** A classifier without a second class *)

Lemma second_column_short (P : list (list Qc)) :
  P <> [] -> Forall (fun r => (length r < 2)%nat) P ->
  second_column P = Raise IndexError.
Proof.
  intros Hne Hall. destruct P as [|r P]; [done|].
  apply Forall_cons in Hall as [Hr _]. cbn [second_column]. unfold at_index.
  by rewrite (lookup_ge_None_2 r 1) by lia.
Qed.

(** X15.  /predict reads the second column of the class probabilities.  With
    a classifier whose probability rows have fewer than two columns, every
    well-formed, non-empty upload is answered with status 400 and
    [IndexError]. *)
Theorem one_class_model_fails (sqrt : Qc -> Qc) (a : Artifacts) (df : DataFrame) :
  well_formed df = true -> rows df <> [] ->
  fitted_on_features (scaler a) ->
  (forall X : matrix,
     length (predict_proba (model a) X) = length X /\
     Forall (fun r => (length r < 2)%nat) (predict_proba (model a) X)) ->
  predict_completion sqrt (Some a) df
  = HTTPException 400 (ErrorProcessingFile IndexError).
Proof.
  intros Hwf Hne [Hmean _] Hm. unfold predict_completion, predict_body.
  rewrite (preprocess_ok sqrt df Hwf). cbn [mbind except_bind].
  set (fr := {| fcolumns := feature_names;
                frows := student_row sqrt df <$> student_ids df |}).
  assert (Hlen : length (values fr) = length (student_ids df)).
  { unfold values, fr. cbn [frows]. by rewrite !length_fmap. }
  assert (Hvne : values fr <> []).
  { intros Hnil. apply (student_ids_nonempty df Hne).
    apply nil_length_inv. by rewrite <- Hlen, Hnil. }
  rewrite transform_ok; [|done|].
  - cbn [mbind except_bind].
    destruct (Hm (transform_row (scaler a) <$> values fr)) as [Hl Hall].
    rewrite second_column_short; [done| |done].
    intros Hnil. apply Hvne. apply nil_length_inv.
    by rewrite <- (length_fmap (transform_row (scaler a))), <- Hl, Hnil.
  - unfold values, fr. cbn [frows]. rewrite <- list_fmap_compose.
    apply Forall_fmap, Forall_forall. intros sid _.
    cbn [compose student_row snd]. by rewrite length_fmap, Hmean.
Qed.

Lemma one_class_model_fails_witness :
  predict_completion sqrtq
    (Some {| model := one_class_classifier; scaler := unit_scaler |}) batch
  = HTTPException 400 (ErrorProcessingFile IndexError).
Proof.
  apply one_class_model_fails.
  - vm_compute. reflexivity.
  - discriminate.
  - exact unit_scaler_fitted.
  - intros X. cbn [model one_class_classifier predict_proba].
    rewrite length_fmap. split; [reflexivity|].
    apply Forall_fmap, Forall_forall. intros r _. simpl. lia.
Defined.
